(** * Collaborative editor core: documents, operations, operational transform

    A shallow embedding of [services/collab-editor/collab_service.py]:
    the [Operation] dataclass, [Document.apply_operation],
    [OperationalTransform.transform], [CollaborativeSession] and
    [CollabEditorService], followed by the properties of the editing core
    that hold of this code.

    Python objects are mutable and passed by reference.  [transform] assigns
    to a field of its second argument, and the very same object is later
    appended to the document history, so operations live in a store
    ([heap]) and are named by references ([oref]).  Documents, sessions and
    the service are threaded explicitly as values.

    The store holds operations whose fields have their declared types
    (integer position, string payload).  The [try]/[except] of
    [apply_operation] is modelled on run-time field values ([Dynamic]), so
    that what the method does with a field off its declared type, and that
    it never fails on the declared types, are both theorems. *)

From Stdlib Require Import ZArith Lia Ascii String.
From stdpp Require Import base tactics numbers list strings gmap functions.

Local Open Scope Z_scope.

(** ** Python strings and slicing *)

(** A Python [str] is a sequence of characters; [len] counts them. *)
Abbreviation text := (list ascii).

Definition txt (s : string) : text := list_ascii_of_string s.

Definition len (s : text) : Z := Z.of_nat (length s).

(** Bound adjustment of a slice index [i] for a sequence of length [n]
    (step 1): a negative index counts from the end, and the result is
    clamped into [0, n].  Slicing a [str] with integer bounds never raises. *)
Definition adjust_index (n i : Z) : Z :=
  if i <? 0 then (if i + n <? 0 then 0 else i + n)
  else (if n <=? i then n else i).

(** [s[:i]] *)
Definition slice_to (s : text) (i : Z) : text :=
  take (Z.to_nat (adjust_index (len s) i)) s.

(** [s[i:]] *)
Definition slice_from (s : text) (i : Z) : text :=
  drop (Z.to_nat (adjust_index (len s) i)) s.

(** ** Data model *)

Module User.
Record t := mk {
  id : string;
  username : string;
  cursor_position : Z;
  connected_at : Z
}.
End User.

Module Operation.
(** [type] is ['insert'] or ['delete'] by convention only: the dataclass
    accepts any string, and any integer as [position].  [timestamp]
    stands for the [datetime] taken at construction. *)
Record t := mk {
  type : string;
  position : Z;
  content : text;
  user_id : string;
  version : Z;
  timestamp : Z
}.

(** The field assignment [op.position = p]. *)
Definition set_position (op : t) (p : Z) : t :=
  mk (type op) p (content op) (user_id op) (version op) (timestamp op).

Definition is_insert (op : t) : bool := bool_decide (type op = "insert"%string).
Definition is_delete (op : t) : bool := bool_decide (type op = "delete"%string).
End Operation.

(** Object identity of an [Operation], and the store of all of them.  Every
    reference a Python program holds denotes an object, so the store is
    total. *)
Definition oref := nat.
Abbreviation heap := (oref -> Operation.t).

(** ** Run-time values of an operation's fields

    The dataclass does not check its fields, and the gateway fills them
    with whatever the JSON message holds.  [apply_operation] wraps its body
    in [try]/[except]; what it does when a field is off its declared type
    is modelled on the values JSON decoding produces. *)

Module Dynamic.
(** A float is not inspected further: no operation of [apply_operation]
    accepts one where it matters.  Of a list or a dict only the number of
    elements is used. *)
Inductive pyvalue :=
| PyNone
| PyBool (b : bool)
| PyInt (z : Z)
| PyFloat
| PyStr (s : text)
| PyList (n : nat)
| PyDict (n : nat).

(** The fields [apply_operation] reads. *)
Record fields := mk {
  type : pyvalue;
  position : pyvalue;
  content : pyvalue
}.

(** The fields of an operation of the declared types. *)
Definition declared (op : Operation.t) : fields :=
  mk (PyStr (txt (Operation.type op)))
     (PyInt (Operation.position op))
     (PyStr (Operation.content op)).

(** [v == s] for a string literal [s]. *)
Definition eq_str (v : pyvalue) (s : string) : bool :=
  match v with
  | PyStr t => bool_decide (t = txt s)
  | _ => false
  end.

(** [s[:v]]: [None] is no bound, a bool is the integer 0 or 1, any other
    non-integer raises [TypeError] (here [None] as result). *)
Definition slice_to (s : text) (v : pyvalue) : option text :=
  match v with
  | PyNone => Some s
  | PyBool b => Some (slice_to s (if b then 1 else 0))
  | PyInt z => Some (slice_to s z)
  | _ => None
  end.

(** [s[v:]] *)
Definition slice_from (s : text) (v : pyvalue) : option text :=
  match v with
  | PyNone => Some s
  | PyBool b => Some (slice_from s (if b then 1 else 0))
  | PyInt z => Some (slice_from s z)
  | _ => None
  end.

(** [len(v)]: defined on strings, lists and dicts. *)
Definition length_of (v : pyvalue) : option Z :=
  match v with
  | PyStr t => Some (len t)
  | PyList n | PyDict n => Some (Z.of_nat n)
  | _ => None
  end.

(** [v + n] for an integer [n]: defined on numbers. *)
Definition add_int (v : pyvalue) (n : Z) : option pyvalue :=
  match v with
  | PyBool b => Some (PyInt ((if b then 1 else 0) + n))
  | PyInt z => Some (PyInt (z + n))
  | PyFloat => Some PyFloat
  | _ => None
  end.

(** [s + v] for a string [s]: defined on strings. *)
Definition concat (s : text) (v : pyvalue) : option text :=
  match v with
  | PyStr t => Some (s ++ t)
  | _ => None
  end.

(** The field values on which the body of [apply_operation] raises: an
    insert needs a position usable as a slice bound (an integer, a bool or
    [None]) and a string payload; a delete needs a position that is an
    integer or a bool and a payload that has a length. *)
Definition is_slice_bound (v : pyvalue) : bool :=
  match v with PyNone | PyBool _ | PyInt _ => true | _ => false end.

Definition is_integer (v : pyvalue) : bool :=
  match v with PyBool _ | PyInt _ => true | _ => false end.

Definition is_str (v : pyvalue) : bool :=
  match v with PyStr _ => true | _ => false end.

Definition has_length (v : pyvalue) : bool :=
  match v with PyStr _ | PyList _ | PyDict _ => true | _ => false end.

Definition raises (f : fields) : bool :=
  if eq_str (type f) "insert" then
    negb (is_slice_bound (position f)) || negb (is_str (content f))
  else if eq_str (type f) "delete" then
    negb (is_integer (position f)) || negb (has_length (content f))
  else false.
End Dynamic.

(** ** Document *)

Module Document.
Record t := mk {
  id : string;
  content : text;
  version : Z;
  operations_history : list oref
}.

(** [Document.__init__(doc_id, initial_content="")] *)
Definition init (doc_id : string) (initial_content : text) : t :=
  mk doc_id initial_content 0 [].

(** The new value of [self.content] computed by the [if]/[elif] of
    [apply_operation]; any other [type] leaves the content as it is. *)
Definition edit (content : text) (op : Operation.t) : text :=
  if Operation.is_insert op then
    slice_to content (Operation.position op) ++
    Operation.content op ++
    slice_from content (Operation.position op)
  else if Operation.is_delete op then
    let end_pos := Operation.position op + len (Operation.content op) in
    slice_to content (Operation.position op) ++ slice_from content end_pos
  else content.

(** The body of the [try] up to the assignment of [self.content], on
    run-time field values: the new content, or [None] when an exception is
    raised.  Every exception here is a [TypeError], which [except
    Exception] catches. *)
Definition try_body (content : text) (f : Dynamic.fields) : option text :=
  if Dynamic.eq_str (Dynamic.type f) "insert" then
    a ← Dynamic.slice_to content (Dynamic.position f);
    b ← Dynamic.concat a (Dynamic.content f);
    c ← Dynamic.slice_from content (Dynamic.position f);
    Some (b ++ c)
  else if Dynamic.eq_str (Dynamic.type f) "delete" then
    n ← Dynamic.length_of (Dynamic.content f);
    end_pos ← Dynamic.add_int (Dynamic.position f) n;
    a ← Dynamic.slice_to content (Dynamic.position f);
    c ← Dynamic.slice_from content end_pos;
    Some (a ++ c)
  else Some content.

(** [apply_operation] on the object [operation] whose fields hold the
    run-time values [f]: when the body raises, the [except] branch returns
    [False] and nothing has been assigned; otherwise the content is
    assigned, the version incremented and the object itself (not a copy)
    appended to the history. *)
Definition apply_operation_dyn (self : t) (operation : oref)
    (f : Dynamic.fields) : bool * t :=
  match try_body (content self) f with
  | Some content' =>
      (true,
       mk (id self) content' (version self + 1)
          (operations_history self ++ [operation]))
  | None => (false, self)
  end.

(** [apply_operation] on an object of the store, whose fields have their
    declared types. *)
Definition apply_operation (self : t) (operation : oref) (h : heap) : bool * t :=
  apply_operation_dyn self operation (Dynamic.declared (h operation)).
End Document.

(** ** Operational transform *)

Module OperationalTransform.
Import Operation.

(** [transform(op1, op2)]: in three of the four kind pairs, [op2.position]
    is assigned in place; the object [op2] itself is returned. *)
Definition transform (op1 op2 : oref) (h : heap) : oref * heap :=
  if is_insert (h op1) && is_insert (h op2) then
    if position (h op1) <=? position (h op2) then
      (op2, <[op2 := set_position (h op2) (position (h op2) + len (content (h op1)))]> h)
    else (op2, h)
  else if is_delete (h op1) && is_insert (h op2) then
    if position (h op1) <? position (h op2) then
      (op2, <[op2 := set_position (h op2) (position (h op2) - len (content (h op1)))]> h)
    else (op2, h)
  else if is_insert (h op1) && is_delete (h op2) then
    if position (h op1) <=? position (h op2) then
      (op2, <[op2 := set_position (h op2) (position (h op2) + len (content (h op1)))]> h)
    else (op2, h)
  else (op2, h).

(** The store holding [a] at reference 0 and [b] at reference 1: two
    distinct objects. *)
Definition two_objects (a b : Operation.t) : heap :=
  fun r => match r with O => a | _ => b end.

(** The value of the operation returned by [transform(a, b)] when [a] and
    [b] are two distinct objects. *)
Definition transformed (a b : Operation.t) : Operation.t :=
  let '(r, h') := transform 0%nat 1%nat (two_objects a b) in h' r.
End OperationalTransform.

(** ** Session *)

Module CollaborativeSession.
Record t := mk {
  id : string;
  document : Document.t;
  users : gmap string User.t;
  pending_operations : list oref
}.

(** [CollaborativeSession.__init__] *)
Definition init (session_id document_id : string) : t :=
  mk session_id (Document.init document_id []) ∅ [].

Definition add_user (self : t) (user : User.t) : t :=
  mk (id self) (document self) (<[User.id user := user]> (users self))
     (pending_operations self).

Definition remove_user (self : t) (user_id : string) : t :=
  match users self !! user_id with
  | Some _ =>
      mk (id self) (document self) (delete user_id (users self))
         (pending_operations self)
  | None => self
  end.

(** The dictionary returned by [process_operation]. *)
Inductive result :=
| Success (operation : oref) (document_version : Z) (content : text)
| Failure (error : string).

(** The [for] loop of [process_operation]:
    [transformed_op = transform(pending_op, transformed_op)] for each
    pending operation in order. *)
Fixpoint transform_against (pending : list oref) (transformed_op : oref)
    (h : heap) : oref * heap :=
  match pending with
  | [] => (transformed_op, h)
  | pending_op :: rest =>
      let '(r, h') := OperationalTransform.transform pending_op transformed_op h in
      transform_against rest r h'
  end.

(** [process_operation] has no [await] in its body: it runs to completion
    without interleaving. *)
Definition process_operation (self : t) (operation : oref) (h : heap)
    : result * t * heap :=
  let '(transformed_op, h') :=
    transform_against (pending_operations self) operation h in
  let '(success, doc) :=
    Document.apply_operation (document self) transformed_op h' in
  let self' := mk (id self) doc (users self) (pending_operations self) in
  if success then
    (Success transformed_op (Document.version doc) (Document.content doc),
     self', h')
  else (Failure "Failed to apply operation", self', h').

(** One entry of the ["users"] list of [get_state]. *)
Record user_entry := mk_user_entry {
  entry_id : string;
  entry_username : string;
  entry_cursor : Z
}.

(** The dictionary returned by [get_state].  The ["users"] list has one
    entry per value of the [users] dictionary, hence per user id; it is
    kept here keyed by that id.  The order of the Python list (insertion
    order of the dictionary) is not represented. *)
Record state := mk_state {
  state_session_id : string;
  state_document_id : string;
  state_content : text;
  state_version : Z;
  state_users : gmap string user_entry
}.

Definition get_state (self : t) : state :=
  mk_state (id self)
    (Document.id (document self))
    (Document.content (document self))
    (Document.version (document self))
    ((fun u => mk_user_entry (User.id u) (User.username u)
                 (User.cursor_position u)) <$> users self).
End CollaborativeSession.

(** ** Service *)

Module CollabEditorService.
Record t := mk { sessions : gmap string CollaborativeSession.t }.

Definition init : t := mk ∅.

Definition create_session (self : t) (session_id document_id : string)
    : CollaborativeSession.t * t :=
  match sessions self !! session_id with
  | Some s => (s, self)
  | None =>
      let s := CollaborativeSession.init session_id document_id in
      (s, mk (<[session_id := s]> (sessions self)))
  end.

Definition get_session (self : t) (session_id : string)
    : option CollaborativeSession.t :=
  sessions self !! session_id.

(** [handle_operation]: the session found is updated in place. *)
Definition handle_operation (self : t) (session_id : string)
    (operation : oref) (h : heap)
    : CollaborativeSession.result * t * heap :=
  match get_session self session_id with
  | None => (CollaborativeSession.Failure "Session not found", self, h)
  | Some session =>
      let '(res, session', h') :=
        CollaborativeSession.process_operation session operation h in
      (res, mk (<[session_id := session']> (sessions self)), h')
  end.

(** The dictionary returned by [join_session]. *)
Inductive join_result :=
| Joined (session_state : CollaborativeSession.state)
| JoinFailure (error : string).

(** [join_session]: [User(id=user_id, username=username)] has cursor
    position 0 and the current time [now] as [connected_at]; the session
    found is updated in place. *)
Definition join_session (self : t) (session_id user_id username : string)
    (now : Z) : join_result * t :=
  match get_session self session_id with
  | None => (JoinFailure "Session not found", self)
  | Some session =>
      let user := User.mk user_id username 0 now in
      let session' := CollaborativeSession.add_user session user in
      (Joined (CollaborativeSession.get_state session'),
       mk (<[session_id := session']> (sessions self)))
  end.
End CollabEditorService.

(** ** Gateway endpoints of the editor *)

Module ApiGateway.
(** [CollabSessionRequest] *)
Record CollabSessionRequest := mk_request {
  session_id : string;
  document_id : string;
  user_id : string;
  username : string
}.

(** [POST /collab/sessions]: create the session if needed, then join it.
    The module-level [collab_service] is threaded as a value. *)
Definition create_collab_session (collab_service : CollabEditorService.t)
    (request : CollabSessionRequest) (now : Z)
    : CollabEditorService.join_result * CollabEditorService.t :=
  let '(_, collab_service') :=
    CollabEditorService.create_session collab_service
      (session_id request) (document_id request) in
  CollabEditorService.join_session collab_service'
    (session_id request) (user_id request) (username request) now.

(** [GET /collab/sessions/{session_id}]: [None] stands for the
    [HTTPException] with status 404. *)
Definition get_session_state (collab_service : CollabEditorService.t)
    (session_id : string) : option CollaborativeSession.state :=
  match CollabEditorService.get_session collab_service session_id with
  | None => None
  | Some session => Some (CollaborativeSession.get_state session)
  end.
End ApiGateway.

(** ** Runs, replay and the vocabulary of the properties *)

(** A sequence of [apply_operation] calls on one document; every call
    returns [True], so each one is a successful apply. *)
Definition apply_all (d : Document.t) (ops : list oref) (h : heap) : Document.t :=
  foldl (fun d r => snd (Document.apply_operation d r h)) d ops.

(** A sequence of [apply_operation] calls, each against the store as it is
    at the time of the call: operation objects can be written between two
    calls. *)
Definition apply_steps (d : Document.t) (steps : list (oref * heap)) : Document.t :=
  foldl (fun d step => snd (Document.apply_operation d (fst step) (snd step)))
    d steps.

(** Replaying a log from some starting content: the content edits of the
    logged operations, in order. *)
Definition replay_from (c : text) (h : heap) (log : list oref) : text :=
  foldl (fun c r => Document.edit c (h r)) c log.

Definition replay (h : heap) (log : list oref) : text := replay_from [] h log.

(** An operation is valid for a content when it is an insert at a position
    within [0, len], or a delete whose range lies within the content. *)
Definition valid_for (s : text) (op : Operation.t) : Prop :=
  (Operation.is_insert op = true /\
   0 <= Operation.position op <= len s) \/
  (Operation.is_delete op = true /\
   0 <= Operation.position op /\
   Operation.position op + len (Operation.content op) <= len s).

(** The position of an operation, or the end of a delete's range, lies
    outside the content. *)
Definition out_of_range (s : text) (op : Operation.t) : Prop :=
  Operation.position op < 0 \/ len s < Operation.position op \/
  (Operation.is_delete op = true /\
   len s < Operation.position op + len (Operation.content op)).

(** Neither ['insert'] nor ['delete']. *)
Definition malformed_kind (op : Operation.t) : Prop :=
  Operation.is_insert op = false /\ Operation.is_delete op = false.

(** The two replicas of a concurrent pair: [a] first and then [b]
    transformed against [a], or [b] first and then [a] transformed against
    [b].  Each replica holds its own copies of the two operations. *)
Definition a_then_b (s : text) (a b : Operation.t) : text :=
  Document.edit (Document.edit s a) (OperationalTransform.transformed a b).

Definition converges (s : text) (a b : Operation.t) : Prop :=
  a_then_b s a b = a_then_b s b a.

(** The pairs of kinds and positions on which [transform] reconciles the
    two orders: two inserts at different positions, or an insert and a
    delete with the insertion point not strictly inside the deleted range. *)
Definition insert_clear_of_delete (i d : Operation.t) : Prop :=
  Operation.is_insert i = true /\ Operation.is_delete d = true /\
  (Operation.position i <= Operation.position d \/
   Operation.position d + len (Operation.content d) <= Operation.position i).

Definition reconcilable (a b : Operation.t) : Prop :=
  (Operation.is_insert a = true /\ Operation.is_insert b = true /\
   Operation.position a <> Operation.position b) \/
  insert_clear_of_delete a b \/ insert_clear_of_delete b a.

(** Session states reachable through the methods of the class.  The store
    is arbitrary at every call: clients create operations freely between
    calls. *)
Inductive reachable (session_id document_id : string)
  : CollaborativeSession.t -> Prop :=
| reach_init :
    reachable session_id document_id
      (CollaborativeSession.init session_id document_id)
| reach_add_user s user :
    reachable session_id document_id s ->
    reachable session_id document_id (CollaborativeSession.add_user s user)
| reach_remove_user s user_id :
    reachable session_id document_id s ->
    reachable session_id document_id (CollaborativeSession.remove_user s user_id)
| reach_process_operation s operation h :
    reachable session_id document_id s ->
    reachable session_id document_id
      (snd (fst (CollaborativeSession.process_operation s operation h))).

(** The sequencing rule in the words of the specification, for comparison
    with [process_operation]: starting from the submitted operation, fold
    [transform(log[i], op')] over the committed entries [log[v0]] up to
    [log[vN-1]], where [v0] is the operation's base version and [vN] the
    length of the log. *)
Definition resolve_against_log (log : list oref) (operation : oref) (h : heap)
    : oref * heap :=
  CollaborativeSession.transform_against
    (drop (Z.to_nat (Operation.version (h operation))) log) operation h.

(** A sequence of submissions to one session: the results in order, the
    final session and the final store. *)
Fixpoint process_all (s : CollaborativeSession.t) (ops : list oref) (h : heap)
    : list CollaborativeSession.result * CollaborativeSession.t * heap :=
  match ops with
  | [] => ([], s, h)
  | r :: rest =>
      let '(res, s', h') := CollaborativeSession.process_operation s r h in
      let '(results, s'', h'') := process_all s' rest h' in
      (res :: results, s'', h'')
  end.

(** ** Concrete operations, stores and states *)

Definition ins (p : Z) (s : string) (u : string) (v : Z) : Operation.t :=
  Operation.mk "insert" p (txt s) u v 0.

Definition del (p : Z) (s : string) (u : string) (v : Z) : Operation.t :=
  Operation.mk "delete" p (txt s) u v 0.

(** Stores and states used in the concrete cases below. *)

(** Two users insert at position 0 of the empty document (base version 0). *)
Definition store_hello_hi : heap :=
  OperationalTransform.two_objects (ins 0 "hello" "A" 0) (ins 0 "hi " "B" 0).

(** An insert far beyond the end of the content ["hello"]. *)
Definition store_beyond_end : heap :=
  OperationalTransform.two_objects (ins 0 "hello" "A" 0) (ins 99 "X" "B" 1).

(** An operation of unknown kind, and an insert at a negative position. *)
Definition store_invalid : heap :=
  OperationalTransform.two_objects
    (Operation.mk "replace" 0 (txt "zzz") "A" 0 0) (ins (-1) "X" "B" 1).

(** The document after object 0 of the stores above, inserting ["hello"],
    has been applied. *)
Definition doc_hello : Document.t :=
  Document.mk "doc" (txt "hello") 1 [0%nat].

Definition session_fresh : CollaborativeSession.t :=
  CollaborativeSession.init "session" "doc".

Definition session_hello : CollaborativeSession.t :=
  CollaborativeSession.mk "session" doc_hello ∅ [].

(** A service holding the session ["session"] in the state [session_hello]. *)
Definition service_hello : CollabEditorService.t :=
  CollabEditorService.mk {[ "session"%string := session_hello ]}.

(** Two users delete the same five characters concurrently. *)
Definition store_double_delete : heap :=
  OperationalTransform.two_objects (del 0 "hello" "A" 1) (del 0 "hello" "B" 1).

Example edit_insert_hello :
  Document.edit [] (ins 0 "hello" "A" 0) = txt "hello".
Proof. reflexivity. Qed.

Example edit_negative_position :
  Document.edit (txt "hello") (ins (-1) "X" "A" 0) = txt "hellXo".
Proof. reflexivity. Qed.

Example edit_beyond_end :
  Document.edit (txt "hello") (ins 99 "X" "A" 0) = txt "helloX".
Proof. reflexivity. Qed.

Example transformed_insert_insert :
  Operation.position
    (OperationalTransform.transformed (ins 0 "hello" "A" 0) (ins 0 "hi " "B" 0)) = 5.
Proof. reflexivity. Qed.

(** ** Slicing within bounds *)

Lemma adjust_index_in_range n i : 0 <= i <= n -> adjust_index n i = i.
Proof.
  intros [Hlo Hhi]. unfold adjust_index.
  destruct (Z.ltb_spec i 0); [lia|].
  destruct (Z.leb_spec n i); lia.
Qed.

Lemma adjust_index_beyond n i : 0 <= n <= i -> adjust_index n i = n.
Proof.
  intros [Hlo Hhi]. unfold adjust_index.
  destruct (Z.ltb_spec i 0); [lia|].
  destruct (Z.leb_spec n i); lia.
Qed.

Lemma len_nonneg s : 0 <= len s.
Proof. unfold len. lia. Qed.

Lemma len_app s1 s2 : len (s1 ++ s2) = len s1 + len s2.
Proof. unfold len. rewrite length_app. lia. Qed.

Lemma slice_to_in_range s i :
  0 <= i <= len s -> slice_to s i = take (Z.to_nat i) s.
Proof. intros H. unfold slice_to. by rewrite adjust_index_in_range. Qed.

Lemma slice_from_in_range s i :
  0 <= i <= len s -> slice_from s i = drop (Z.to_nat i) s.
Proof. intros H. unfold slice_from. by rewrite adjust_index_in_range. Qed.

Lemma slice_to_beyond s i : len s <= i -> slice_to s i = s.
Proof.
  intros H. unfold slice_to.
  rewrite adjust_index_beyond by (pose proof (len_nonneg s); lia).
  apply firstn_all2. unfold len. lia.
Qed.

Lemma slice_from_beyond s i : len s <= i -> slice_from s i = [].
Proof.
  intros H. unfold slice_from.
  rewrite adjust_index_beyond by (pose proof (len_nonneg s); lia).
  apply drop_ge. unfold len. lia.
Qed.

(** ** Kinds *)

Lemma insert_not_delete op :
  Operation.is_insert op = true -> Operation.is_delete op = false.
Proof.
  unfold Operation.is_insert, Operation.is_delete.
  intros H%bool_decide_eq_true. rewrite H. reflexivity.
Qed.

Lemma delete_not_insert op :
  Operation.is_delete op = true -> Operation.is_insert op = false.
Proof.
  unfold Operation.is_insert, Operation.is_delete.
  intros H%bool_decide_eq_true. rewrite H. reflexivity.
Qed.

Lemma edit_insert s op :
  Operation.is_insert op = true ->
  Document.edit s op =
    slice_to s (Operation.position op) ++ Operation.content op ++
    slice_from s (Operation.position op).
Proof. intros H. unfold Document.edit. by rewrite H. Qed.

Lemma edit_delete s op :
  Operation.is_delete op = true ->
  Document.edit s op =
    slice_to s (Operation.position op) ++
    slice_from s (Operation.position op + len (Operation.content op)).
Proof.
  intros H. unfold Document.edit.
  by rewrite (delete_not_insert _ H), H.
Qed.

Lemma edit_malformed s op : malformed_kind op -> Document.edit s op = s.
Proof. intros [Hi Hd]. unfold Document.edit. by rewrite Hi, Hd. Qed.

(** ** Operations of the declared types never raise *)

Lemma txt_inj s1 s2 : txt s1 = txt s2 -> s1 = s2.
Proof.
  intros H. unfold txt in H.
  rewrite <- (string_of_list_ascii_of_string s1),
          <- (string_of_list_ascii_of_string s2).
  by rewrite H.
Qed.

Lemma eq_str_declared t s :
  Dynamic.eq_str (Dynamic.PyStr (txt t)) s = bool_decide (t = s).
Proof.
  simpl. apply bool_decide_ext. split; [apply txt_inj | by intros ->].
Qed.

(** For integer position and string payload the body of the [try] runs to
    its end and computes [edit]. *)
Lemma try_body_declared c op :
  Document.try_body c (Dynamic.declared op) = Some (Document.edit c op).
Proof.
  unfold Document.try_body, Document.edit, Dynamic.declared,
    Operation.is_insert, Operation.is_delete.
  cbn [Dynamic.type Dynamic.position Dynamic.content].
  rewrite !eq_str_declared.
  destruct (bool_decide (Operation.type op = "insert"%string)).
  { simpl. by rewrite <- app_assoc. }
  destruct (bool_decide (Operation.type op = "delete"%string)); done.
Qed.

Lemma apply_operation_declared d r h :
  Document.apply_operation d r h =
    (true,
     Document.mk (Document.id d)
       (Document.edit (Document.content d) (h r))
       (Document.version d + 1)
       (Document.operations_history d ++ [r])).
Proof.
  unfold Document.apply_operation, Document.apply_operation_dyn.
  by rewrite try_body_declared.
Qed.

(** ** Documents: version, history and replay *)

Lemma apply_all_snoc d ops r h :
  apply_all d (ops ++ [r]) h =
  snd (Document.apply_operation (apply_all d ops h) r h).
Proof. unfold apply_all. by rewrite foldl_app. Qed.

Lemma history_apply_all d ops h :
  Document.operations_history (apply_all d ops h) =
  Document.operations_history d ++ ops.
Proof.
  induction ops as [|r ops IH] using rev_ind.
  - simpl. by rewrite app_nil_r.
  - rewrite apply_all_snoc, apply_operation_declared. simpl.
    rewrite IH. by rewrite app_assoc.
Qed.

Lemma version_apply_all d ops h :
  Document.version (apply_all d ops h) =
  Document.version d + Z.of_nat (length ops).
Proof.
  induction ops as [|r ops IH] using rev_ind.
  - simpl. lia.
  - rewrite apply_all_snoc, apply_operation_declared. simpl.
    rewrite IH, length_app. simpl. lia.
Qed.

Lemma content_apply_all d ops h :
  Document.content (apply_all d ops h) =
  replay_from (Document.content d) h ops.
Proof.
  induction ops as [|r ops IH] using rev_ind.
  - reflexivity.
  - rewrite apply_all_snoc, apply_operation_declared. unfold replay_from in *.
    rewrite foldl_app. simpl. by rewrite IH.
Qed.

(** Replay from the initial content, whatever it is: the general form of
    the replay invariant. *)
Lemma replay_from_initial_content doc_id initial_content ops h v :
  replay_from initial_content h
    (take v (Document.operations_history
               (apply_all (Document.init doc_id initial_content) ops h))) =
  Document.content
    (apply_all (Document.init doc_id initial_content) (take v ops) h).
Proof. by rewrite history_apply_all, content_apply_all. Qed.

(** C10. A fresh document is at version 0 with an empty history; every
    [apply_operation] succeeds, adds exactly 1 to the version and appends
    exactly the applied operation to the history; so after any sequence of
    applies the version equals the length of the history, having grown by
    one at each step. *)
Theorem C10_version_equals_history_length
    (doc_id : string) (initial_content : text) (d : Document.t)
    (r : oref) (ops : list oref) (h : heap) :
  Document.version (Document.init doc_id initial_content) = 0 /\
  Document.operations_history (Document.init doc_id initial_content) = [] /\
  fst (Document.apply_operation d r h) = true /\
  Document.version (snd (Document.apply_operation d r h)) =
    Document.version d + 1 /\
  Document.operations_history (snd (Document.apply_operation d r h)) =
    Document.operations_history d ++ [r] /\
  Document.version (apply_all (Document.init doc_id initial_content) ops h) =
    Z.of_nat (length (Document.operations_history
                        (apply_all (Document.init doc_id initial_content) ops h))).
Proof.
  rewrite apply_operation_declared. repeat split.
  rewrite version_apply_all, history_apply_all. simpl. lia.
Qed.

(** For the document a session creates (empty initial content), replay from
    empty content reproduces the content at every version. *)
Lemma session_document_replay doc_id ops h v :
  replay h (take v (Document.operations_history
                      (apply_all (Document.init doc_id []) ops h))) =
  Document.content (apply_all (Document.init doc_id []) (take v ops) h).
Proof. apply replay_from_initial_content. Qed.

(** C8 (as stated, refuted). A document constructed with the initial content
    ["abc"] and then given the insert of ["hello"] at 0 is at version 1
    with content ["helloabc"]; replaying its log from empty content gives
    ["hello"]. *)
Lemma C8_replay_from_empty_misses_initial_content :
  Document.version
    (apply_all (Document.init "doc" (txt "abc")) [0%nat] store_hello_hi) = 1 /\
  Document.content
    (apply_all (Document.init "doc" (txt "abc")) [0%nat] store_hello_hi) =
    txt "helloabc" /\
  replay store_hello_hi
    (take 1 (Document.operations_history
               (apply_all (Document.init "doc" (txt "abc")) [0%nat]
                  store_hello_hi))) = txt "hello".
Proof. repeat split. Qed.

Lemma apply_steps_snoc d steps step :
  apply_steps d (steps ++ [step]) =
  snd (Document.apply_operation (apply_steps d steps) (fst step) (snd step)).
Proof. unfold apply_steps. by rewrite foldl_app. Qed.

Lemma history_apply_steps d steps :
  Document.operations_history (apply_steps d steps) =
  Document.operations_history d ++ steps.*1.
Proof.
  induction steps as [|step steps IH] using rev_ind.
  - simpl. by rewrite app_nil_r.
  - rewrite apply_steps_snoc, apply_operation_declared. simpl.
    rewrite IH, fmap_app. by rewrite app_assoc.
Qed.

Lemma version_apply_steps d steps :
  Document.version (apply_steps d steps) =
  Document.version d + Z.of_nat (length steps).
Proof.
  induction steps as [|step steps IH] using rev_ind.
  - simpl. lia.
  - rewrite apply_steps_snoc, apply_operation_declared. simpl.
    rewrite IH, length_app. simpl. lia.
Qed.

(** The content after a sequence of applies is the replay, in a store [h],
    of the objects applied, as long as [h] holds each of them as it was
    when it was applied. *)
Lemma content_apply_steps d steps h :
  (forall r hr, (r, hr) ∈ steps -> h r = hr r) ->
  Document.content (apply_steps d steps) =
  replay_from (Document.content d) h steps.*1.
Proof.
  induction steps as [|[r hr] steps IH] using rev_ind; intros Hkept.
  - reflexivity.
  - rewrite apply_steps_snoc, apply_operation_declared. simpl.
    rewrite fmap_app. unfold replay_from in *. rewrite foldl_app. simpl.
    rewrite <- IH.
    + rewrite (Hkept r hr); [done|]. apply elem_of_app. right. by left.
    + intros r' hr' Hin. apply Hkept. apply elem_of_app. by left.
Qed.

(** C8 (amended). For a document constructed with some initial content
    (empty by default) and any sequence of applies, and every version [v]
    up to the current one: the state the document had at version [v] is the
    one after the first [v] applies, and, provided none of the first [v]
    logged objects has been written since it was applied (the history
    holds the submitted objects, not copies), replaying the first [v]
    logged operations starting from the initial content yields exactly the
    content of that state. *)
Theorem C8_replay_reproduces_content
    (doc_id : string) (initial_content : text)
    (steps : list (oref * heap)) (h : heap) (v : nat)
    (Hv : (v <= length steps)%nat)
    (Hkept : forall r hr, (r, hr) ∈ take v steps -> h r = hr r) :
  Document.version
    (apply_steps (Document.init doc_id initial_content) (take v steps)) =
    Z.of_nat v /\
  replay_from initial_content h
    (take v (Document.operations_history
               (apply_steps (Document.init doc_id initial_content) steps))) =
    Document.content
      (apply_steps (Document.init doc_id initial_content) (take v steps)).
Proof.
  split.
  - rewrite version_apply_steps, length_take. simpl. lia.
  - rewrite history_apply_steps. simpl. rewrite <- fmap_take.
    symmetry. by apply content_apply_steps.
Qed.

Lemma C8_replay_witness :
  (1 <= length [(0%nat, store_hello_hi); (1%nat, store_hello_hi)])%nat /\
  replay_from [] store_beyond_end
    (take 1 (Document.operations_history
               (apply_steps (Document.init "doc" [])
                  [(0%nat, store_hello_hi); (1%nat, store_hello_hi)]))) =
  txt "hello".
Proof.
  split; [simpl; lia|].
  rewrite (proj2 (C8_replay_reproduces_content "doc" []
    [(0%nat, store_hello_hi); (1%nat, store_hello_hi)] store_beyond_end 1
    ltac:(simpl; lia)
    ltac:(intros r hr Hin; apply list_elem_of_singleton in Hin;
          injection Hin as -> ->; reflexivity))).
  reflexivity.
Defined.

Lemma slice_to_nonneg s i : 0 <= i -> slice_to s i = take (Z.to_nat i) s.
Proof.
  intros Hi. destruct (Z.le_gt_cases i (len s)) as [Hle|Hgt].
  - by apply slice_to_in_range.
  - rewrite slice_to_beyond by lia.
    symmetry. apply firstn_all2. unfold len in Hgt. lia.
Qed.

(** ** Apply never rejects *)

(** C6 (as stated, refuted). An insert at position 99 into ["hello"] is out
    of range, yet [apply_operation] returns [True], appends the payload at
    the end, advances the version and logs the operation. *)
Lemma C6_out_of_range_insert_is_applied :
  out_of_range (Document.content doc_hello) (store_beyond_end 1%nat) /\
  Document.apply_operation doc_hello 1%nat store_beyond_end =
    (true, Document.mk "doc" (txt "helloX") 2 [0%nat; 1%nat]).
Proof. split; [right; left; reflexivity | reflexivity]. Qed.

(** An insert whose position is a float raises in the slice: the [except]
    branch returns [False] and the document is as before. *)
Example apply_operation_float_position_fails :
  Document.apply_operation_dyn doc_hello 1%nat
    (Dynamic.mk (Dynamic.PyStr (txt "insert")) Dynamic.PyFloat
       (Dynamic.PyStr (txt "X"))) = (false, doc_hello).
Proof. reflexivity. Qed.

(** An insert whose position is [None] does not raise: both slices are the
    whole content. *)
Example apply_operation_none_position_duplicates :
  Document.apply_operation_dyn doc_hello 1%nat
    (Dynamic.mk (Dynamic.PyStr (txt "insert")) Dynamic.PyNone
       (Dynamic.PyStr (txt "-"))) =
    (true, Document.mk "doc" (txt "hello-hello") 2 [0%nat; 1%nat]).
Proof. reflexivity. Qed.

(** The body of the [try] raises exactly on the field values [raises]
    lists. *)
Lemma try_body_raises c f :
  Document.try_body c f = None <-> Dynamic.raises f = true.
Proof.
  unfold Document.try_body, Dynamic.raises.
  destruct f as [ty pos ct]. simpl.
  destruct (Dynamic.eq_str ty "insert").
  - destruct pos, ct; simpl; split; (done || discriminate).
  - destruct (Dynamic.eq_str ty "delete"); [|split; discriminate].
    destruct pos as [|b|z| | | |], ct; simpl; split; (done || discriminate).
Qed.

(** C6 (amended). [apply_operation] never reports an out-of-range error.
    For every operation whose fields have their declared types, in range
    or not, it returns [True], adds 1 to the version and appends the
    operation to the history; a position out of range at the high end is
    clamped by slicing, so an insert beyond the end appends its payload at
    the end and a delete running past the end removes everything from its
    position on.  It returns [False] only through its [except] branch,
    exactly when a field is off its declared type in a way that makes the
    body raise, and it is atomic: on [False] the document is unchanged, on
    [True] the version has advanced by 1 and the operation is logged. *)
Theorem C6_out_of_range_is_clamped
    (d : Document.t) (r : oref) (h : heap) (f : Dynamic.fields) :
  (fst (Document.apply_operation d r h) = true /\
   Document.version (snd (Document.apply_operation d r h)) =
     Document.version d + 1 /\
   Document.operations_history (snd (Document.apply_operation d r h)) =
     Document.operations_history d ++ [r]) /\
  (Operation.is_insert (h r) = true ->
   len (Document.content d) < Operation.position (h r) ->
   Document.content (snd (Document.apply_operation d r h)) =
     Document.content d ++ Operation.content (h r)) /\
  (Operation.is_delete (h r) = true ->
   0 <= Operation.position (h r) ->
   len (Document.content d) <
     Operation.position (h r) + len (Operation.content (h r)) ->
   Document.content (snd (Document.apply_operation d r h)) =
     take (Z.to_nat (Operation.position (h r))) (Document.content d)) /\
  (fst (Document.apply_operation_dyn d r f) = false <->
   Dynamic.raises f = true) /\
  (Document.apply_operation_dyn d r f = (false, d) \/
   (fst (Document.apply_operation_dyn d r f) = true /\
    Document.version (snd (Document.apply_operation_dyn d r f)) =
      Document.version d + 1 /\
    Document.operations_history (snd (Document.apply_operation_dyn d r f)) =
      Document.operations_history d ++ [r])).
Proof.
  rewrite apply_operation_declared. simpl.
  split; [done|]. split; [|split; [|split]].
  - intros Hi Hlt. rewrite edit_insert by done.
    rewrite slice_to_beyond, slice_from_beyond by lia.
    by rewrite app_nil_r.
  - intros Hd Hpos Hlt. rewrite edit_delete by done.
    rewrite slice_from_beyond by lia.
    rewrite app_nil_r. by apply slice_to_nonneg.
  - rewrite <- (try_body_raises (Document.content d)).
    unfold Document.apply_operation_dyn.
    destruct (Document.try_body (Document.content d) f); simpl;
      split; (done || discriminate).
  - unfold Document.apply_operation_dyn.
    destruct (Document.try_body (Document.content d) f); simpl; auto.
Qed.

Lemma C6_out_of_range_is_clamped_witness :
  Document.content (snd (Document.apply_operation doc_hello 1%nat store_beyond_end)) =
  txt "helloX".
Proof.
  rewrite (proj1 (proj2 (C6_out_of_range_is_clamped
    doc_hello 1%nat store_beyond_end (Dynamic.declared (store_beyond_end 1%nat))))
    ltac:(reflexivity) ltac:(reflexivity)).
  reflexivity.
Defined.

(** ** Transform: the value computed and the store written *)

Import Operation.

(** The value [transform] leaves in its second argument. *)
Lemma transformed_eq a b :
  OperationalTransform.transformed a b =
  if is_insert a && is_insert b then
    if position a <=? position b
    then set_position b (position b + len (content a)) else b
  else if is_delete a && is_insert b then
    if position a <? position b
    then set_position b (position b - len (content a)) else b
  else if is_insert a && is_delete b then
    if position a <=? position b
    then set_position b (position b + len (content a)) else b
  else b.
Proof.
  unfold OperationalTransform.transformed, OperationalTransform.transform.
  simpl.
  repeat (case_match; simplify_eq/=; try reflexivity).
Qed.

Lemma transform_returns_second op1 op2 h :
  fst (OperationalTransform.transform op1 op2 h) = op2.
Proof.
  unfold OperationalTransform.transform.
  repeat (case_match; try reflexivity).
Qed.

(** The store after the call: only the cell of [op2] is written, with the
    value [transformed] computes; this covers [op1] and [op2] being one
    object. *)
Lemma transform_store op1 op2 h r :
  snd (OperationalTransform.transform op1 op2 h) r =
  if decide (r = op2)
  then OperationalTransform.transformed (h op1) (h op2) else h r.
Proof.
  rewrite transformed_eq. unfold OperationalTransform.transform.
  repeat (case_match; simplify_eq/=; try reflexivity);
    try (by rewrite fn_lookup_insert);
    try (by rewrite fn_lookup_insert_ne).
Qed.

(** ** Transform writes its argument *)

(** C3 (as stated, refuted). [transform] returns the object it was given as
    second argument, and that object's position has been changed by the
    call: 0 before, 5 after. *)
Lemma C3_transform_mutates_second_argument :
  fst (OperationalTransform.transform 0%nat 1%nat store_hello_hi) = 1%nat /\
  position (store_hello_hi 1%nat) = 0 /\
  position
    (snd (OperationalTransform.transform 0%nat 1%nat store_hello_hi) 1%nat) = 5.
Proof. repeat split. Qed.

(** C3 (amended). [transform(a, b)] returns the object [b] itself; no other
    object of the store is written, and of [b] only the position can
    change: kind, payload, author, base version and timestamp are as
    before the call. *)
Theorem C3_transform_writes_only_position_of_second
    (op1 op2 r : oref) (h : heap) (Hother : r <> op2) :
  fst (OperationalTransform.transform op1 op2 h) = op2 /\
  snd (OperationalTransform.transform op1 op2 h) r = h r /\
  type (snd (OperationalTransform.transform op1 op2 h) op2) = type (h op2) /\
  content (snd (OperationalTransform.transform op1 op2 h) op2) = content (h op2) /\
  user_id (snd (OperationalTransform.transform op1 op2 h) op2) = user_id (h op2) /\
  version (snd (OperationalTransform.transform op1 op2 h) op2) = version (h op2) /\
  timestamp (snd (OperationalTransform.transform op1 op2 h) op2) = timestamp (h op2).
Proof.
  split; [apply transform_returns_second|].
  rewrite !transform_store.
  destruct (decide (r = op2)) as [?|_]; [done|].
  destruct (decide (op2 = op2)) as [_|?]; [|done].
  rewrite transformed_eq.
  repeat split; repeat (case_match; try reflexivity).
Qed.

Lemma C3_transform_writes_only_position_witness :
  0%nat <> 1%nat /\
  snd (OperationalTransform.transform 0%nat 1%nat store_hello_hi) 0%nat =
    store_hello_hi 0%nat.
Proof.
  split; [lia|].
  apply (C3_transform_writes_only_position_of_second
           0%nat 1%nat 0%nat store_hello_hi ltac:(lia)).
Defined.

(** ** Transform and negative positions *)

(** C7 (as stated, refuted). Deleting ["hello"] at 0 and inserting at 2 are
    both valid for the content ["hello"], and the insert transformed
    against the delete has position -3. *)
Lemma C7_delete_insert_position_negative :
  valid_for (txt "hello") (del 0 "hello" "A" 1) /\
  valid_for (txt "hello") (ins 2 "XX" "B" 1) /\
  position
    (OperationalTransform.transformed (del 0 "hello" "A" 1) (ins 2 "XX" "B" 1)) = -3.
Proof.
  split; [right; repeat split; discriminate|].
  split; [left; repeat split; discriminate|].
  reflexivity.
Qed.

(** C7 (amended). For [b] at a non-negative position, the operation
    returned by [transform(a, b)] has a non-negative position except when
    [a] is a delete, [b] an insert and [a.position < b.position <
    len(a.payload)]: in the Delete/Insert case with [a.position <
    b.position] the position is moved left by the whole [len(a.payload)],
    without clamping. *)
Theorem C7_position_nonnegative_unless_unclamped_shift
    (a b : Operation.t) (Hb : 0 <= position b) :
  (0 <= position (OperationalTransform.transformed a b) <->
   ~ (is_delete a = true /\ is_insert b = true /\
      position a < position b < len (content a))) /\
  (is_delete a = true -> is_insert b = true -> position a < position b ->
   position (OperationalTransform.transformed a b) =
     position b - len (content a)).
Proof.
  rewrite transformed_eq. pose proof (len_nonneg (content a)) as Hlen.
  destruct (is_insert a) eqn:Hia, (is_insert b) eqn:Hib,
           (is_delete a) eqn:Hda, (is_delete b) eqn:Hdb; simpl;
    try (apply insert_not_delete in Hia; congruence);
    try (apply insert_not_delete in Hib; congruence);
    repeat case_match; simpl; split; try split; intros; try lia;
    try (intros (? & ? & ?); first [discriminate | lia]);
    try discriminate.
Qed.

Lemma C7_position_nonnegative_witness :
  0 <= position (ins 7 "XX" "B" 1) /\
  0 <= position
         (OperationalTransform.transformed (del 0 "hello" "A" 1) (ins 7 "XX" "B" 1)).
Proof.
  split; [simpl; lia|].
  apply (proj1 (C7_position_nonnegative_unless_unclamped_shift
                  (del 0 "hello" "A" 1) (ins 7 "XX" "B" 1) ltac:(simpl; lia))).
  intros (_ & _ & _ & H). cbv in H. discriminate H.
Defined.

(** ** Concurrent deletes *)

(** C5 (as stated, refuted). For two concurrent deletes of the same five
    characters, [transform] returns the second delete as it was, still five
    characters long, and applying both removes ten characters of
    ["hello world"] where one deletion leaves [" world"]. *)
Lemma C5_double_delete_removes_twice :
  OperationalTransform.transformed (del 0 "hello" "A" 1) (del 0 "hello" "B" 1) =
    del 0 "hello" "B" 1 /\
  len (content (OperationalTransform.transformed
                  (del 0 "hello" "A" 1) (del 0 "hello" "B" 1))) = 5 /\
  Document.edit (txt "hello world") (del 0 "hello" "A" 1) = txt " world" /\
  a_then_b (txt "hello world") (del 0 "hello" "A" 1) (del 0 "hello" "B" 1) =
    txt "d".
Proof. repeat split. Qed.

(** C5 (amended). For two deletes, [transform(a, b)] returns [b] unchanged
    and writes nothing: no overlap is computed, the range is not shrunk and
    the position is not shifted.  Neither submission fails:
    [apply_operation] returns [True] for the delete handed back. *)
Theorem C5_delete_delete_left_unchanged
    (op1 op2 : oref) (h : heap) (d : Document.t)
    (Ha : is_delete (h op1) = true) (Hb : is_delete (h op2) = true) :
  OperationalTransform.transform op1 op2 h = (op2, h) /\
  OperationalTransform.transformed (h op1) (h op2) = h op2 /\
  fst (Document.apply_operation d
         (fst (OperationalTransform.transform op1 op2 h)) h) = true.
Proof.
  split; [|split; [|by rewrite apply_operation_declared]].
  - unfold OperationalTransform.transform.
    rewrite (delete_not_insert _ Ha), (delete_not_insert _ Hb).
    by rewrite !andb_false_r.
  - rewrite transformed_eq.
    rewrite (delete_not_insert _ Ha), (delete_not_insert _ Hb).
    by rewrite !andb_false_r.
Qed.

Lemma C5_delete_delete_left_unchanged_witness :
  OperationalTransform.transform 0%nat 1%nat store_double_delete =
    (1%nat, store_double_delete).
Proof.
  apply (C5_delete_delete_left_unchanged 0%nat 1%nat store_double_delete doc_hello);
    reflexivity.
Defined.

(** ** Operations of unknown kind or negative position *)

Lemma transform_malformed op1 op2 h :
  malformed_kind (h op2) -> OperationalTransform.transform op1 op2 h = (op2, h).
Proof.
  intros [Hi Hd]. unfold OperationalTransform.transform.
  rewrite Hi, Hd. by rewrite !andb_false_r.
Qed.

Lemma transform_against_returns_submitted pending r h :
  fst (CollaborativeSession.transform_against pending r h) = r.
Proof.
  revert h. induction pending as [|p pending IH]; intros h; [done|].
  simpl. destruct (OperationalTransform.transform p r h) as [r' h'] eqn:E.
  pose proof (transform_returns_second p r h) as Hr.
  rewrite E in Hr. simpl in Hr. subst r'. apply IH.
Qed.

Lemma transform_against_malformed pending r h :
  malformed_kind (h r) ->
  CollaborativeSession.transform_against pending r h = (r, h).
Proof.
  intros Hbad. induction pending as [|p pending IH]; [done|].
  simpl. by rewrite transform_malformed.
Qed.

(** [process_operation] in one equation: the submitted object, as the loop
    over the pending operations leaves it, is applied and logged. *)
Lemma process_operation_eq s r h :
  CollaborativeSession.process_operation s r h =
    (CollaborativeSession.Success r
       (Document.version (CollaborativeSession.document s) + 1)
       (Document.edit (Document.content (CollaborativeSession.document s))
          (snd (CollaborativeSession.transform_against
                  (CollaborativeSession.pending_operations s) r h) r)),
     CollaborativeSession.mk (CollaborativeSession.id s)
       (Document.mk (Document.id (CollaborativeSession.document s))
          (Document.edit (Document.content (CollaborativeSession.document s))
             (snd (CollaborativeSession.transform_against
                     (CollaborativeSession.pending_operations s) r h) r))
          (Document.version (CollaborativeSession.document s) + 1)
          (Document.operations_history (CollaborativeSession.document s) ++ [r]))
       (CollaborativeSession.users s)
       (CollaborativeSession.pending_operations s),
     snd (CollaborativeSession.transform_against
            (CollaborativeSession.pending_operations s) r h)).
Proof.
  unfold CollaborativeSession.process_operation.
  pose proof (transform_against_returns_submitted
                (CollaborativeSession.pending_operations s) r h) as Hr.
  destruct (CollaborativeSession.transform_against _ r h) as [r' h'].
  simpl in *. subst r'. by rewrite apply_operation_declared.
Qed.

(** C9 (as stated, refuted). An operation of kind ['replace'] submitted to a
    fresh session is accepted: the result is a success, the version goes to
    1 and the operation is in the log.  An insert at position -1 is accepted
    too and changes the content. *)
Lemma C9_invalid_operations_are_accepted :
  malformed_kind (store_invalid 0%nat) /\
  fst (fst (CollaborativeSession.process_operation
              session_fresh 0%nat store_invalid)) =
    CollaborativeSession.Success 0%nat 1 [] /\
  CollaborativeSession.document
    (snd (fst (CollaborativeSession.process_operation
                 session_fresh 0%nat store_invalid))) =
    Document.mk "doc" [] 1 [0%nat] /\
  position (store_invalid 1%nat) < 0 /\
  fst (fst (CollaborativeSession.process_operation
              session_hello 1%nat store_invalid)) =
    CollaborativeSession.Success 1%nat 2 (txt "hellXo").
Proof. repeat split. Qed.

(** C9 (amended). Nothing is rejected as invalid: for every submitted
    operation whose fields have their declared types, whatever its kind
    and its position (negative included), [process_operation] reports
    success, the version advances by 1 and the submitted object is
    appended to the log.  An operation whose kind is neither insert nor
    delete is not transformed and does not change the content. *)
Theorem C9_malformed_kind_accepted_without_edit
    (s : CollaborativeSession.t) (r : oref) (h : heap) :
  (exists c,
     fst (fst (CollaborativeSession.process_operation s r h)) =
       CollaborativeSession.Success r
         (Document.version (CollaborativeSession.document s) + 1) c) /\
  Document.version
    (CollaborativeSession.document
       (snd (fst (CollaborativeSession.process_operation s r h)))) =
    Document.version (CollaborativeSession.document s) + 1 /\
  Document.operations_history
    (CollaborativeSession.document
       (snd (fst (CollaborativeSession.process_operation s r h)))) =
    Document.operations_history (CollaborativeSession.document s) ++ [r] /\
  (malformed_kind (h r) ->
   CollaborativeSession.process_operation s r h =
     (CollaborativeSession.Success r
        (Document.version (CollaborativeSession.document s) + 1)
        (Document.content (CollaborativeSession.document s)),
      CollaborativeSession.mk (CollaborativeSession.id s)
        (Document.mk (Document.id (CollaborativeSession.document s))
           (Document.content (CollaborativeSession.document s))
           (Document.version (CollaborativeSession.document s) + 1)
           (Document.operations_history (CollaborativeSession.document s) ++ [r]))
        (CollaborativeSession.users s)
        (CollaborativeSession.pending_operations s),
      h)).
Proof.
  rewrite process_operation_eq. simpl.
  split; [eauto|]. split; [done|]. split; [done|].
  intros Hbad. rewrite transform_against_malformed by done.
  simpl. by rewrite edit_malformed.
Qed.

Lemma C9_malformed_kind_accepted_witness :
  malformed_kind (store_invalid 0%nat) /\
  fst (fst (CollaborativeSession.process_operation
              session_hello 0%nat store_invalid)) =
    CollaborativeSession.Success 0%nat 2 (txt "hello").
Proof.
  split; [split; reflexivity|].
  rewrite (proj2 (proj2 (proj2 (C9_malformed_kind_accepted_without_edit
             session_hello 0%nat store_invalid)))
             ltac:(split; reflexivity)).
  reflexivity.
Defined.

(** ** Edits at a known split of the content *)

Lemma slice_to_at x y i : i = len x -> slice_to (x ++ y) i = x.
Proof.
  intros ->. pose proof (len_nonneg y).
  rewrite slice_to_in_range by (rewrite len_app; unfold len in *; lia).
  unfold len. rewrite Nat2Z.id. apply take_app_length.
Qed.

Lemma slice_from_at x y i : i = len x -> slice_from (x ++ y) i = y.
Proof.
  intros ->. pose proof (len_nonneg y).
  rewrite slice_from_in_range by (rewrite len_app; unfold len in *; lia).
  unfold len. rewrite Nat2Z.id. apply drop_app_length.
Qed.

Lemma split_at s p :
  0 <= p <= len s -> exists x y, s = x ++ y /\ len x = p /\ len y = len s - p.
Proof.
  intros Hp. exists (take (Z.to_nat p) s), (drop (Z.to_nat p) s).
  split; [by rewrite take_drop|].
  unfold len in *. rewrite length_take, length_drop. lia.
Qed.

Lemma edit_insert_at s x y op :
  s = x ++ y -> is_insert op = true -> position op = len x ->
  Document.edit s op = x ++ content op ++ y.
Proof.
  intros -> Hi Hp. rewrite edit_insert by done.
  by rewrite slice_to_at, slice_from_at.
Qed.

Lemma edit_delete_at s x y z op :
  s = x ++ y ++ z -> is_delete op = true ->
  position op = len x -> len (content op) = len y ->
  Document.edit s op = x ++ z.
Proof.
  intros -> Hd Hp Hl. rewrite edit_delete by done.
  rewrite slice_to_at by done.
  rewrite app_assoc, slice_from_at; [done|].
  rewrite len_app. lia.
Qed.

(** ** Inserts at the same position *)

(** C4 (as stated, refuted). Two inserts at position 0 of the empty document
    by authors ["A"] and ["B"]: each is shifted by the other's length, so
    neither is left unaffected, and the final order of the two fragments is
    the commit order, ["hellohi "] one way and ["hi hello"] the other. *)
Lemma C4_tie_resolved_by_commit_order :
  position (OperationalTransform.transformed
              (ins 0 "hello" "A" 0) (ins 0 "hi " "B" 0)) = 5 /\
  position (OperationalTransform.transformed
              (ins 0 "hi " "B" 0) (ins 0 "hello" "A" 0)) = 3 /\
  a_then_b [] (ins 0 "hello" "A" 0) (ins 0 "hi " "B" 0) = txt "hellohi " /\
  a_then_b [] (ins 0 "hi " "B" 0) (ins 0 "hello" "A" 0) = txt "hi hello".
Proof. repeat split. Qed.

(** C4 (amended). For two inserts at the same position, [transform(a, b)]
    shifts [b] right by [len(a.payload)] whoever the authors are; the author
    ids are not consulted.  At a non-negative position the fragment of the
    operation committed first therefore comes first in the final content:
    [content[:p] + a.payload + b.payload + content[p:]]. *)
Theorem C4_equal_position_insert_is_shifted
    (s : text) (a b : Operation.t)
    (Ha : is_insert a = true) (Hb : is_insert b = true)
    (Heq : position a = position b) :
  OperationalTransform.transformed a b =
    set_position b (position b + len (content a)) /\
  (0 <= position a ->
   a_then_b s a b =
     slice_to s (position a) ++ content a ++ content b ++
     slice_from s (position a)).
Proof.
  assert (OperationalTransform.transformed a b =
          set_position b (position b + len (content a))) as Ht.
  { rewrite transformed_eq, Ha, Hb. simpl.
    destruct (Z.leb_spec (position a) (position b)); [done|lia]. }
  split; [done|]. intros Hpos.
  unfold a_then_b. rewrite Ht.
  destruct (Z.le_gt_cases (position a) (len s)) as [Hle|Hgt].
  - destruct (split_at s (position a)) as (x & y & -> & Hx & _); [lia|].
    rewrite slice_to_at, slice_from_at by done.
    rewrite (edit_insert_at _ x y a) by done.
    rewrite (edit_insert_at _ (x ++ content a) y).
    + by rewrite <- app_assoc.
    + by rewrite <- app_assoc.
    + done.
    + simpl. rewrite len_app. lia.
  - pose proof (len_nonneg (content a)) as Hla.
    rewrite (edit_insert s a), (edit_insert _ (set_position b _)) by done.
    simpl.
    rewrite !(slice_to_beyond s), !(slice_from_beyond s) by lia.
    rewrite app_nil_r.
    rewrite slice_to_beyond, slice_from_beyond by (rewrite len_app; lia).
    by rewrite <- app_assoc.
Qed.

Lemma C4_equal_position_insert_witness :
  a_then_b (txt "ab") (ins 1 "hello" "A" 0) (ins 1 "hi " "B" 0) =
    txt "ahellohi b".
Proof.
  rewrite (proj2 (C4_equal_position_insert_is_shifted
    (txt "ab") (ins 1 "hello" "A" 0) (ins 1 "hi " "B" 0)
    ltac:(reflexivity) ltac:(reflexivity) ltac:(reflexivity))
    ltac:(discriminate)).
  reflexivity.
Defined.

(** ** Convergence *)

Lemma converges_sym s a b : converges s a b -> converges s b a.
Proof. unfold converges. congruence. Qed.

Lemma transformed_insert_insert_le a b :
  is_insert a = true -> is_insert b = true -> position a <= position b ->
  OperationalTransform.transformed a b =
    set_position b (position b + len (content a)).
Proof.
  intros Ha Hb Hle. rewrite transformed_eq, Ha, Hb. simpl.
  destruct (Z.leb_spec (position a) (position b)); [done|lia].
Qed.

Lemma transformed_insert_insert_gt a b :
  is_insert a = true -> is_insert b = true -> position b < position a ->
  OperationalTransform.transformed a b = b.
Proof.
  intros Ha Hb Hlt. rewrite transformed_eq, Ha, Hb. simpl.
  destruct (Z.leb_spec (position a) (position b)); [lia|done].
Qed.

Lemma transformed_insert_delete i d :
  is_insert i = true -> is_delete d = true ->
  OperationalTransform.transformed i d =
    if position i <=? position d
    then set_position d (position d + len (content i)) else d.
Proof.
  intros Hi Hd. rewrite transformed_eq.
  by rewrite Hi, Hd, (delete_not_insert _ Hd), (insert_not_delete _ Hi).
Qed.

Lemma transformed_delete_insert d i :
  is_delete d = true -> is_insert i = true ->
  OperationalTransform.transformed d i =
    if position d <? position i
    then set_position i (position i - len (content d)) else i.
Proof.
  intros Hd Hi. rewrite transformed_eq.
  by rewrite Hi, Hd, (delete_not_insert _ Hd).
Qed.

(** Two inserts, the first strictly to the left of the second. *)
Lemma converges_insert_insert_lt s a b :
  is_insert a = true -> is_insert b = true ->
  0 <= position a -> position a < position b -> position b <= len s ->
  converges s a b.
Proof.
  intros Ha Hb H0 Hlt Hle.
  destruct (split_at s (position a)) as (x & yz & -> & Hx & Hyz); [lia|].
  destruct (split_at yz (position b - position a)) as (y & z & -> & Hy & _);
    [lia|].
  unfold converges, a_then_b.
  rewrite transformed_insert_insert_le by (done || lia).
  rewrite transformed_insert_insert_gt by done.
  rewrite (edit_insert_at _ x (y ++ z) a) by done.
  rewrite (edit_insert_at _ (x ++ content a ++ y) z);
    [| by rewrite <- !app_assoc | done | simpl; rewrite !len_app; lia].
  rewrite (edit_insert_at _ (x ++ y) z b);
    [| by rewrite <- !app_assoc | done | rewrite len_app; lia].
  rewrite (edit_insert_at _ x (y ++ content b ++ z) a);
    [| by rewrite <- !app_assoc | done | done].
  by rewrite <- !app_assoc.
Qed.

(** An insert at or before the start of a concurrent delete's range. *)
Lemma converges_insert_before_delete s i d :
  is_insert i = true -> is_delete d = true ->
  0 <= position i -> position i <= position d ->
  position d + len (content d) <= len s ->
  converges s i d.
Proof.
  intros Hi Hd H0 Hle Hend. pose proof (len_nonneg (content d)) as Hlen.
  destruct (split_at s (position i)) as (x & r1 & -> & Hx & Hr1); [lia|].
  destruct (split_at r1 (position d - position i)) as (y & r2 & -> & Hy & Hr2);
    [lia|].
  destruct (split_at r2 (len (content d))) as (w & z & -> & Hw & _); [lia|].
  unfold converges, a_then_b.
  rewrite transformed_insert_delete, transformed_delete_insert by done.
  destruct (Z.leb_spec (position i) (position d)); [|lia].
  destruct (Z.ltb_spec (position d) (position i)); [lia|].
  rewrite (edit_insert_at _ x (y ++ w ++ z) i) by done.
  rewrite (edit_delete_at _ (x ++ content i ++ y) w z);
    [| by rewrite <- !app_assoc | done | simpl; rewrite !len_app; lia
     | simpl; lia].
  rewrite (edit_delete_at _ (x ++ y) w z d);
    [| by rewrite <- !app_assoc | done | rewrite len_app; lia | lia].
  rewrite (edit_insert_at _ x (y ++ z) i);
    [| by rewrite <- !app_assoc | done | done].
  by rewrite <- !app_assoc.
Qed.

(** An insert at or after the end of a concurrent delete's range. *)
Lemma converges_insert_after_delete s i d :
  is_insert i = true -> is_delete d = true ->
  0 <= position d -> position d < position i ->
  position d + len (content d) <= position i -> position i <= len s ->
  converges s i d.
Proof.
  intros Hi Hd H0 Hlt Hend Hle. pose proof (len_nonneg (content d)) as Hlen.
  destruct (split_at s (position d)) as (x & r1 & -> & Hx & Hr1); [lia|].
  destruct (split_at r1 (len (content d))) as (w & r2 & -> & Hw & Hr2); [lia|].
  destruct (split_at r2 (position i - position d - len (content d)))
    as (y & z & -> & Hy & _); [lia|].
  unfold converges, a_then_b.
  rewrite transformed_insert_delete, transformed_delete_insert by done.
  destruct (Z.leb_spec (position i) (position d)); [lia|].
  destruct (Z.ltb_spec (position d) (position i)); [|lia].
  rewrite (edit_insert_at _ (x ++ w ++ y) z i);
    [| by rewrite <- !app_assoc | done | rewrite !len_app; lia].
  rewrite (edit_delete_at _ x w (y ++ content i ++ z) d);
    [| by rewrite <- !app_assoc | done | done | lia].
  rewrite (edit_delete_at _ x w (y ++ z) d); [| done | done | done | lia].
  rewrite (edit_insert_at _ (x ++ y) z);
    [| by rewrite <- !app_assoc | done | simpl; rewrite len_app; lia].
  by rewrite <- !app_assoc.
Qed.

Lemma converges_insert_clear_of_delete s i d :
  valid_for s i -> valid_for s d -> insert_clear_of_delete i d ->
  converges s i d.
Proof.
  intros Vi Vd (Hi & Hd & Hpos).
  destruct Vi as [(_ & Hi0 & Hi1)|(Hdi & _)];
    [|rewrite (insert_not_delete _ Hi) in Hdi; discriminate].
  destruct Vd as [(Hid & _)|(_ & Hd0 & Hd1)];
    [rewrite (delete_not_insert _ Hd) in Hid; discriminate|].
  destruct (Z.le_gt_cases (position i) (position d)) as [Hle|Hgt].
  - by apply converges_insert_before_delete.
  - apply converges_insert_after_delete; (done || lia).
Qed.

(** C1 (as stated, refuted). On the content ["hello"], deleting the five
    characters and inserting ["XX"] at position 2 are both valid; the
    replica that applies the delete first ends with ["XX"], the one that
    applies the insert first ends with ["lo"]. *)
Lemma C1_delete_insert_diverge :
  valid_for (txt "hello") (del 0 "hello" "A" 1) /\
  valid_for (txt "hello") (ins 2 "XX" "B" 1) /\
  a_then_b (txt "hello") (del 0 "hello" "A" 1) (ins 2 "XX" "B" 1) = txt "XX" /\
  a_then_b (txt "hello") (ins 2 "XX" "B" 1) (del 0 "hello" "A" 1) = txt "lo" /\
  ~ converges (txt "hello") (del 0 "hello" "A" 1) (ins 2 "XX" "B" 1).
Proof.
  split; [right; repeat split; discriminate|].
  split; [left; repeat split; discriminate|].
  repeat split. intros H. discriminate H.
Qed.

(** C1 (amended). Convergence holds for two valid concurrent operations that
    are two inserts at different positions, or an insert and a delete with
    the insertion point at or before the start, or at or after the end, of
    the deleted range: applying [a] and then [transform(a, b)] gives the
    same content as applying [b] and then [transform(b, a)]. *)
Theorem C1_convergence_on_reconcilable_pairs
    (s : text) (a b : Operation.t)
    (Va : valid_for s a) (Vb : valid_for s b) (Hab : reconcilable a b) :
  Document.edit (Document.edit s a) (OperationalTransform.transformed a b) =
  Document.edit (Document.edit s b) (OperationalTransform.transformed b a).
Proof.
  change (converges s a b).
  destruct Hab as [(Ha & Hb & Hne)|[Hc|Hc]].
  - destruct Va as [(_ & Ha0 & Ha1)|(Hda & _)];
      [|rewrite (insert_not_delete _ Ha) in Hda; discriminate].
    destruct Vb as [(_ & Hb0 & Hb1)|(Hdb & _)];
      [|rewrite (insert_not_delete _ Hb) in Hdb; discriminate].
    destruct (Z.lt_total (position a) (position b)) as [Hlt|[Heq|Hgt]].
    + by apply converges_insert_insert_lt.
    + done.
    + apply converges_sym. by apply converges_insert_insert_lt.
  - by apply converges_insert_clear_of_delete.
  - apply converges_sym. by apply converges_insert_clear_of_delete.
Qed.

Lemma C1_convergence_witness :
  Document.edit (Document.edit (txt "hello world") (ins 5 "," "A" 1))
    (OperationalTransform.transformed (ins 5 "," "A" 1) (del 6 "world" "B" 1)) =
  Document.edit (Document.edit (txt "hello world") (del 6 "world" "B" 1))
    (OperationalTransform.transformed (del 6 "world" "B" 1) (ins 5 "," "A" 1)).
Proof.
  apply (C1_convergence_on_reconcilable_pairs
           (txt "hello world") (ins 5 "," "A" 1) (del 6 "world" "B" 1)).
  - left. repeat split; discriminate.
  - right. repeat split; discriminate.
  - right. left. repeat split. left. discriminate.
Defined.

(** ** Sequencing in a session *)

Lemma foldl_ext_in_pending {A} (f g : oref -> A) (step : A -> A -> A)
    (pending : list oref) (x : A) :
  (forall q, q ∈ pending -> f q = g q) ->
  foldl (fun acc p => step (f p) acc) x pending =
  foldl (fun acc p => step (g p) acc) x pending.
Proof.
  revert x. induction pending as [|p pending IH]; intros x Hfg; [done|].
  simpl. rewrite Hfg by left. apply IH.
  intros q Hq. apply Hfg. by right.
Qed.


(** X9. The loop of [process_operation] on a pending list that does not contain
    the submitted object: the submitted operation ends as the fold of
    [transform] over the pending operations, in order, and no other object
    is written. *)
Lemma transform_against_fold pending r h :
  r ∉ pending ->
  forall r',
    snd (CollaborativeSession.transform_against pending r h) r' =
    if decide (r' = r)
    then foldl (fun acc p => OperationalTransform.transformed (h p) acc)
           (h r) pending
    else h r'.
Proof.
  revert h. induction pending as [|p pending IH]; intros h Hnotin r'.
  - simpl. by destruct (decide (r' = r)) as [->|].
  - apply not_elem_of_cons in Hnotin as [Hne Hnotin]. simpl.
    destruct (OperationalTransform.transform p r h) as [r1 h1] eqn:E.
    pose proof (transform_returns_second p r h) as Hr.
    pose proof (transform_store p r h) as Hst.
    rewrite E in Hr, Hst. simpl in Hr, Hst. subst r1.
    rewrite IH by done.
    destruct (decide (r' = r)) as [->|Hr'].
    + rewrite (Hst r). destruct (decide (r = r)) as [_|?]; [|done].
      apply foldl_ext_in_pending.
      intros q Hq. rewrite Hst. destruct (decide (q = r)) as [->|]; done.
    + rewrite Hst. by destruct (decide (r' = r)).
Qed.

Lemma reachable_pending_empty session_id document_id s :
  reachable session_id document_id s ->
  CollaborativeSession.pending_operations s = [].
Proof.
  induction 1 as [|s user _ IH|s user_id _ IH|s operation h _ IH].
  - reflexivity.
  - exact IH.
  - unfold CollaborativeSession.remove_user.
    by destruct (CollaborativeSession.users s !! user_id).
  - by rewrite process_operation_eq.
Qed.

(** X19. The service hands a submitted operation to the session registered
    under the id: the answer is that session's answer, and the session as
    [process_operation] left it is the one found under the id afterwards. *)
Lemma handle_operation_found self session_id session r h :
  CollabEditorService.get_session self session_id = Some session ->
  fst (fst (CollabEditorService.handle_operation self session_id r h)) =
    fst (fst (CollaborativeSession.process_operation session r h)) /\
  CollabEditorService.get_session
    (snd (fst (CollabEditorService.handle_operation self session_id r h)))
    session_id =
    Some (snd (fst (CollaborativeSession.process_operation session r h))).
Proof.
  intros Hs. unfold CollabEditorService.handle_operation. rewrite Hs.
  destruct (CollaborativeSession.process_operation session r h) as [[res s'] h'].
  split; [done|]. unfold CollabEditorService.get_session. simpl.
  apply lookup_insert_eq.
Qed.

Lemma handle_operation_unknown_session self session_id r h :
  CollabEditorService.get_session self session_id = None ->
  CollabEditorService.handle_operation self session_id r h =
    (CollaborativeSession.Failure "Session not found", self, h).
Proof.
  intros Hs. unfold CollabEditorService.handle_operation. by rewrite Hs.
Qed.

(** C2 (as stated, refuted). The session of the running example holds
    ["hello"] at version 1 with user A's insert as [log[0]]; user B submits
    an insert at position 0 with base version 0.  Folding [transform] over
    [log[0..1)] would move B's insert to position 5.  [process_operation]
    leaves it at position 0 and answers with the content ["hi hello"]. *)
Lemma C2_log_is_not_replayed :
  snd (fst (CollaborativeSession.process_operation
              session_fresh 0%nat store_hello_hi)) = session_hello /\
  version (store_hello_hi 1%nat) = 0 /\
  position
    (snd (resolve_against_log
            (Document.operations_history
               (CollaborativeSession.document session_hello))
            1%nat store_hello_hi) 1%nat) = 5 /\
  position
    (snd (CollaborativeSession.process_operation
            session_hello 1%nat store_hello_hi) 1%nat) = 0 /\
  fst (fst (CollaborativeSession.process_operation
              session_hello 1%nat store_hello_hi)) =
    CollaborativeSession.Success 1%nat 2 (txt "hi hello").
Proof. repeat split. Qed.

(** C2 (amended). [process_operation] folds [transform] over the session's
    list of pending operations, never over the log, and does not read the
    base version.  That list is empty in every session state reachable
    through the methods of the class, so a submitted operation is applied
    exactly as submitted: the store is not written, the resolved operation
    is the submitted object, the content is edited by it, the version
    advances by 1 and the object is appended to the log. *)
Theorem C2_submitted_operation_applied_as_is
    (session_id document_id : string) (s : CollaborativeSession.t)
    (r : oref) (h : heap)
    (Hs : reachable session_id document_id s) :
  CollaborativeSession.pending_operations s = [] /\
  CollaborativeSession.process_operation s r h =
    (CollaborativeSession.Success r
       (Document.version (CollaborativeSession.document s) + 1)
       (Document.edit (Document.content (CollaborativeSession.document s)) (h r)),
     CollaborativeSession.mk (CollaborativeSession.id s)
       (Document.mk (Document.id (CollaborativeSession.document s))
          (Document.edit (Document.content (CollaborativeSession.document s)) (h r))
          (Document.version (CollaborativeSession.document s) + 1)
          (Document.operations_history (CollaborativeSession.document s) ++ [r]))
       (CollaborativeSession.users s)
       [],
     h).
Proof.
  pose proof (reachable_pending_empty _ _ _ Hs) as Hp.
  split; [done|].
  rewrite process_operation_eq. by rewrite Hp.
Qed.

Lemma C2_submitted_operation_applied_witness :
  reachable "session" "doc" session_hello /\
  fst (fst (CollaborativeSession.process_operation
              session_hello 1%nat store_hello_hi)) =
    CollaborativeSession.Success 1%nat 2 (txt "hi hello").
Proof.
  assert (reachable "session" "doc" session_hello) as Hs.
  { exact (reach_process_operation "session" "doc" session_fresh 0%nat
             store_hello_hi (reach_init "session" "doc")). }
  split; [exact Hs|].
  rewrite (proj2 (C2_submitted_operation_applied_as_is
                    "session" "doc" session_hello 1%nat store_hello_hi Hs)).
  reflexivity.
Defined.

(** ** Edits: what an insert and a delete do to the content *)

(** [s[:i] + s[i:]] is [s] for every integer [i], in range or not. *)
Lemma slice_split s i : slice_to s i ++ slice_from s i = s.
Proof. unfold slice_to, slice_from. apply take_drop. Qed.

Lemma slice_from_nonneg s i : 0 <= i -> slice_from s i = drop (Z.to_nat i) s.
Proof.
  intros Hi. destruct (Z.le_gt_cases i (len s)) as [Hle|Hgt].
  - by apply slice_from_in_range.
  - rewrite slice_from_beyond by lia.
    symmetry. apply drop_ge. unfold len in Hgt. lia.
Qed.

Lemma len_edit_insert s op :
  is_insert op = true -> len (Document.edit s op) = len s + len (content op).
Proof.
  intros Hi. rewrite edit_insert by done.
  rewrite <- (slice_split s (position op)) at 3.
  rewrite !len_app. lia.
Qed.

Lemma len_edit_delete_in_range s op :
  is_delete op = true -> 0 <= position op ->
  position op + len (content op) <= len s ->
  len (Document.edit s op) = len s - len (content op).
Proof.
  intros Hd H0 Hend. pose proof (len_nonneg (content op)) as Hl.
  destruct (split_at s (position op)) as (x & r & -> & Hx & Hr); [lia|].
  destruct (split_at r (len (content op))) as (y & z & -> & Hy & _); [lia|].
  rewrite (edit_delete_at _ x y z) by done.
  rewrite !len_app. lia.
Qed.

Lemma adjust_index_cut n i :
  0 <= n ->
  adjust_index n i = if i <? 0 then Z.max 0 (n + i) else Z.min i n.
Proof.
  intros Hn. unfold adjust_index.
  destruct (Z.ltb_spec i 0).
  - destruct (Z.ltb_spec (i + n) 0); lia.
  - destruct (Z.leb_spec n i); lia.
Qed.

(** X1. An insert never loses or reorders a character, whatever its
    integer position: the content is cut at the index [k] and the payload
    placed between the two parts, where [k] is the position itself when it
    lies within the content, the length of the content when the position
    is beyond the end, and [max(0, len + position)] when the position is
    negative; the length grows by exactly the payload's length. *)
Theorem insert_splices_payload
    (s : text) (op : Operation.t) (Hi : is_insert op = true) :
  Document.edit s op =
    take (Z.to_nat (if position op <? 0
                    then Z.max 0 (len s + position op)
                    else Z.min (position op) (len s))) s
    ++ content op ++
    drop (Z.to_nat (if position op <? 0
                    then Z.max 0 (len s + position op)
                    else Z.min (position op) (len s))) s /\
  len (Document.edit s op) = len s + len (content op).
Proof.
  split; [|by apply len_edit_insert].
  rewrite edit_insert by done. unfold slice_to, slice_from.
  by rewrite adjust_index_cut by apply len_nonneg.
Qed.

Lemma insert_splices_payload_witness :
  Document.edit (txt "hello") (ins (-1) "X" "A" 0) = txt "hellXo".
Proof.
  rewrite (proj1 (insert_splices_payload (txt "hello") (ins (-1) "X" "A" 0)
                    eq_refl)).
  reflexivity.
Defined.

(** X2. An operation with an empty payload leaves the content as it is,
    for every kind and every position; [apply_operation] still counts it:
    the version advances and the operation is logged. *)
Theorem empty_payload_changes_no_content
    (d : Document.t) (r : oref) (h : heap) (Hempty : content (h r) = []) :
  Document.content (snd (Document.apply_operation d r h)) = Document.content d /\
  Document.version (snd (Document.apply_operation d r h)) =
    Document.version d + 1 /\
  Document.operations_history (snd (Document.apply_operation d r h)) =
    Document.operations_history d ++ [r].
Proof.
  rewrite apply_operation_declared.
  repeat split. simpl. unfold Document.edit. rewrite Hempty.
  destruct (is_insert (h r)); [apply slice_split|].
  destruct (is_delete (h r)); [|done].
  simpl. unfold len. simpl. rewrite Z.add_0_r. apply slice_split.
Qed.

Lemma empty_payload_changes_no_content_witness :
  Document.content
    (snd (Document.apply_operation doc_hello 0%nat
            (OperationalTransform.two_objects
               (del 3 "" "A" 1) (ins 0 "" "B" 1)))) = txt "hello".
Proof.
  exact (proj1 (empty_payload_changes_no_content doc_hello 0%nat
    (OperationalTransform.two_objects (del 3 "" "A" 1) (ins 0 "" "B" 1))
    eq_refl)).
Defined.

(** X3. A delete whose range lies within the content removes exactly the
    characters of that range, whatever characters its payload holds (only
    the payload's length is used): the content is [x ++ y ++ z] with [x] of
    length [position] and [y] of the payload's length, and becomes
    [x ++ z]. *)
Theorem delete_removes_its_range
    (s : text) (op : Operation.t) (Hd : is_delete op = true)
    (H0 : 0 <= position op) (Hend : position op + len (content op) <= len s) :
  exists x y z,
    s = x ++ y ++ z /\ len x = position op /\ len y = len (content op) /\
    Document.edit s op = x ++ z /\
    len (Document.edit s op) = len s - len (content op).
Proof.
  pose proof (len_nonneg (content op)) as Hl.
  destruct (split_at s (position op)) as (x & r & -> & Hx & Hr); [lia|].
  destruct (split_at r (len (content op))) as (y & z & -> & Hy & _); [lia|].
  exists x, y, z. repeat split; try done.
  - by apply (edit_delete_at _ x y z).
  - by apply len_edit_delete_in_range.
Qed.

Lemma delete_removes_its_range_witness :
  exists x y z,
    txt "hello world" = x ++ y ++ z /\
    len x = position (del 5 "XXXXXX" "A" 1) /\
    len y = len (content (del 5 "XXXXXX" "A" 1)) /\
    Document.edit (txt "hello world") (del 5 "XXXXXX" "A" 1) = x ++ z /\
    len (Document.edit (txt "hello world") (del 5 "XXXXXX" "A" 1)) =
      len (txt "hello world") - len (content (del 5 "XXXXXX" "A" 1)).
Proof.
  apply (delete_removes_its_range (txt "hello world") (del 5 "XXXXXX" "A" 1)).
  - reflexivity.
  - discriminate.
  - discriminate.
Defined.

(** A delete at a negative position can lengthen the content: the prefix
    is cut from the end, the suffix from the start. *)
Example delete_negative_position_grows :
  Document.edit (txt "hello") (del (-1) "abc" "A" 1) = txt "hellllo".
Proof. reflexivity. Qed.

(** X4. A delete at a non-negative position never lengthens the content,
    in range or not. *)
Theorem delete_nonnegative_never_grows
    (s : text) (op : Operation.t) (Hd : is_delete op = true)
    (H0 : 0 <= position op) :
  len (Document.edit s op) <= len s.
Proof.
  pose proof (len_nonneg (content op)) as Hl.
  rewrite edit_delete by done.
  rewrite slice_to_nonneg, slice_from_nonneg by lia.
  unfold len in *. rewrite length_app, length_take, length_drop. lia.
Qed.

Lemma delete_nonnegative_never_grows_witness :
  len (Document.edit (txt "hello") (del 3 "abcdef" "A" 1)) <= len (txt "hello").
Proof.
  apply (delete_nonnegative_never_grows (txt "hello") (del 3 "abcdef" "A" 1)).
  - reflexivity.
  - discriminate.
Defined.

(** X5. Undoing an insert: after an insert at a position within the
    content, a delete at the same position with a payload of the same
    length restores the content. *)
Theorem delete_undoes_insert
    (s : text) (i d : Operation.t)
    (Hi : is_insert i = true) (Hd : is_delete d = true)
    (Hin : 0 <= position i <= len s)
    (Hpos : position d = position i)
    (Hlen : len (content d) = len (content i)) :
  Document.edit (Document.edit s i) d = s.
Proof.
  destruct (split_at s (position i) Hin) as (x & y & -> & Hx & _).
  rewrite (edit_insert_at _ x y i) by done.
  apply (edit_delete_at _ x (content i) y); (done || lia).
Qed.

Lemma delete_undoes_insert_witness :
  Document.edit (Document.edit (txt "hello") (ins 2 "XY" "A" 1))
    (del 2 "XY" "B" 2) = txt "hello".
Proof.
  apply (delete_undoes_insert (txt "hello") (ins 2 "XY" "A" 1) (del 2 "XY" "B" 2));
    try reflexivity.
  split; discriminate.
Defined.

(** X6. Undoing a delete: after a delete of the range holding the text [c],
    an insert of [c] at the same position restores the content. *)
Theorem insert_undoes_delete
    (x c z : text) (d i : Operation.t)
    (Hd : is_delete d = true) (Hi : is_insert i = true)
    (Hpd : position d = len x) (Hpi : position i = len x)
    (Hlen : len (content d) = len c) (Hc : content i = c) :
  Document.edit (Document.edit (x ++ c ++ z) d) i = x ++ c ++ z.
Proof.
  rewrite (edit_delete_at _ x c z d) by done.
  rewrite (edit_insert_at _ x z i) by done.
  by rewrite Hc.
Qed.

Lemma insert_undoes_delete_witness :
  Document.edit (Document.edit (txt "he" ++ txt "ll" ++ txt "o") (del 2 "ll" "A" 1))
    (ins 2 "ll" "B" 2) = txt "he" ++ txt "ll" ++ txt "o".
Proof.
  apply (insert_undoes_delete (txt "he") (txt "ll") (txt "o")
           (del 2 "ll" "A" 1) (ins 2 "ll" "B" 2)); reflexivity.
Defined.

(** ** Transform: how far an operation moves, and where it lands *)

Lemma valid_insert_inv s op :
  valid_for s op -> is_insert op = true -> 0 <= position op <= len s.
Proof.
  intros [(_ & H)|(Hd & _)] Hi; [done|].
  rewrite (insert_not_delete _ Hi) in Hd. discriminate.
Qed.

Lemma valid_delete_inv s op :
  valid_for s op -> is_delete op = true ->
  0 <= position op /\ position op + len (content op) <= len s.
Proof.
  intros [(Hi & _)|(_ & H)] Hd; [|done].
  rewrite (delete_not_insert _ Hd) in Hi. discriminate.
Qed.

Lemma valid_kind s op :
  valid_for s op -> is_insert op = true \/ is_delete op = true.
Proof. intros [(Hi & _)|(Hd & _)]; auto. Qed.

(** X7. [transform(a, b)] moves [b] by at most the length of [a]'s payload,
    in a direction fixed by the kind of [a]: never to the left when [a] is
    not a delete, never to the right when [a] is not an insert, and not at
    all when [a] is neither. *)
Theorem transform_shift_is_bounded (a b : Operation.t) :
  position b - (if is_delete a then len (content a) else 0) <=
    position (OperationalTransform.transformed a b) /\
  position (OperationalTransform.transformed a b) <=
    position b + (if is_insert a then len (content a) else 0).
Proof.
  rewrite transformed_eq. pose proof (len_nonneg (content a)) as Hl.
  destruct (is_insert a) eqn:Hia.
  - rewrite (insert_not_delete _ Hia). simpl.
    repeat case_match; simpl; lia.
  - simpl. destruct (is_delete a); simpl; repeat case_match; simpl; lia.
Qed.

(** X8. The operation [transform(a, b)] returns is valid for the content
    left by [a] whenever [a] is an insert, and also when [a] is a delete
    and [b] an insert outside the deleted range: its position, and the end
    of its range for a delete, lie within the new content. *)
Theorem transformed_valid_after_first
    (s : text) (a b : Operation.t)
    (Va : valid_for s a) (Vb : valid_for s b)
    (Hab : is_insert a = true \/ insert_clear_of_delete b a) :
  valid_for (Document.edit s a) (OperationalTransform.transformed a b).
Proof.
  pose proof (len_nonneg (content a)) as Hla.
  destruct Hab as [Ha|(Hb & Ha & Hpos)].
  - pose proof (valid_insert_inv _ _ Va Ha) as Hpa.
    pose proof (len_edit_insert s a Ha) as Hlen.
    destruct (valid_kind _ _ Vb) as [Hb|Hb].
    + pose proof (valid_insert_inv _ _ Vb Hb) as Hpb.
      left. destruct (Z.le_gt_cases (position a) (position b)).
      * rewrite transformed_insert_insert_le by done.
        split; [done|]. simpl. lia.
      * rewrite transformed_insert_insert_gt by (done || lia).
        split; [done|]. lia.
    + pose proof (valid_delete_inv _ _ Vb Hb) as Hpb.
      right. rewrite transformed_insert_delete by done.
      destruct (Z.leb_spec (position a) (position b)).
      * split; [done|]. simpl. lia.
      * split; [done|]. lia.
  - pose proof (valid_delete_inv _ _ Va Ha) as [Ha0 Ha1].
    pose proof (valid_insert_inv _ _ Vb Hb) as Hpb.
    pose proof (len_edit_delete_in_range s a Ha Ha0 Ha1) as Hlen.
    left. rewrite transformed_delete_insert by done.
    destruct (Z.ltb_spec (position a) (position b)).
    + split; [done|]. simpl. lia.
    + split; [done|]. lia.
Qed.

Lemma transformed_valid_after_first_witness :
  valid_for (Document.edit (txt "hello world") (ins 5 "," "A" 1))
    (OperationalTransform.transformed (ins 5 "," "A" 1) (del 6 "world" "B" 1)).
Proof.
  apply (transformed_valid_after_first
           (txt "hello world") (ins 5 "," "A" 1) (del 6 "world" "B" 1)).
  - left. repeat split; discriminate.
  - right. repeat split; discriminate.
  - left. reflexivity.
Defined.

Lemma transform_against_fold_witness :
  position
    (snd (CollaborativeSession.transform_against [0%nat] 1%nat store_hello_hi)
       1%nat) = 5.
Proof.
  rewrite (transform_against_fold [0%nat] 1%nat store_hello_hi
             ltac:(intros H%list_elem_of_singleton; discriminate H) 1%nat).
  reflexivity.
Defined.

(** ** Users of a session *)

(** X10. A user who joins and then leaves a session they were not in
    leaves the session exactly as it was. *)
Theorem remove_user_undoes_add_user
    (s : CollaborativeSession.t) (u : User.t)
    (Hnew : CollaborativeSession.users s !! User.id u = None) :
  CollaborativeSession.remove_user (CollaborativeSession.add_user s u)
    (User.id u) = s.
Proof.
  unfold CollaborativeSession.remove_user, CollaborativeSession.add_user.
  simpl. rewrite lookup_insert_eq, delete_insert_id by done.
  by destruct s.
Qed.

Lemma remove_user_undoes_add_user_witness :
  CollaborativeSession.remove_user
    (CollaborativeSession.add_user session_hello (User.mk "user1" "Alice" 0 0))
    "user1" = session_hello.
Proof.
  exact (remove_user_undoes_add_user session_hello
           (User.mk "user1" "Alice" 0 0) eq_refl).
Defined.

(** X11. [remove_user] removes the user with the given id, if there is one,
    and nothing else: that id is absent afterwards, every other user is as
    before, and the document and the pending list are untouched.  An
    unknown id is not an error. *)
Theorem remove_user_removes_only_that_user
    (s : CollaborativeSession.t) (user_id other : string)
    (Hother : other <> user_id) :
  CollaborativeSession.users
    (CollaborativeSession.remove_user s user_id) !! user_id = None /\
  CollaborativeSession.users
    (CollaborativeSession.remove_user s user_id) !! other =
    CollaborativeSession.users s !! other /\
  CollaborativeSession.document (CollaborativeSession.remove_user s user_id) =
    CollaborativeSession.document s /\
  CollaborativeSession.pending_operations
    (CollaborativeSession.remove_user s user_id) =
    CollaborativeSession.pending_operations s.
Proof.
  unfold CollaborativeSession.remove_user.
  destruct (CollaborativeSession.users s !! user_id) as [u|] eqn:E; simpl.
  - rewrite lookup_delete_eq, lookup_delete_ne by done. done.
  - done.
Qed.

Lemma remove_user_removes_only_that_user_witness :
  CollaborativeSession.users
    (CollaborativeSession.remove_user
       (CollaborativeSession.add_user
          (CollaborativeSession.add_user session_hello
             (User.mk "user1" "Alice" 0 0))
          (User.mk "user2" "Bob" 0 0))
       "user1") !! "user2" = Some (User.mk "user2" "Bob" 0 0).
Proof.
  rewrite (proj1 (proj2 (remove_user_removes_only_that_user
    (CollaborativeSession.add_user
       (CollaborativeSession.add_user session_hello
          (User.mk "user1" "Alice" 0 0))
       (User.mk "user2" "Bob" 0 0))
    "user1" "user2" ltac:(discriminate)))).
  reflexivity.
Defined.

(** X12. [add_user] stores the user under its id: a new id adds one user,
    an id already present replaces that user and the number of users stays
    the same; the document is untouched. *)
Theorem add_user_keeps_one_entry_per_id
    (s : CollaborativeSession.t) (u : User.t) :
  CollaborativeSession.users (CollaborativeSession.add_user s u) !! User.id u =
    Some u /\
  size (CollaborativeSession.users (CollaborativeSession.add_user s u)) =
    match CollaborativeSession.users s !! User.id u with
    | Some _ => size (CollaborativeSession.users s)
    | None => S (size (CollaborativeSession.users s))
    end /\
  CollaborativeSession.document (CollaborativeSession.add_user s u) =
    CollaborativeSession.document s.
Proof.
  unfold CollaborativeSession.add_user. simpl.
  split; [apply lookup_insert_eq|]. split; [|done].
  rewrite map_size_insert.
  by destruct (CollaborativeSession.users s !! User.id u).
Qed.

(** ** Runs of a session *)

Lemma process_operation_no_pending s r h :
  CollaborativeSession.pending_operations s = [] ->
  CollaborativeSession.process_operation s r h =
    (CollaborativeSession.Success r
       (Document.version (CollaborativeSession.document s) + 1)
       (Document.edit (Document.content (CollaborativeSession.document s)) (h r)),
     CollaborativeSession.mk (CollaborativeSession.id s)
       (snd (Document.apply_operation (CollaborativeSession.document s) r h))
       (CollaborativeSession.users s) [],
     h).
Proof.
  intros Hp. rewrite process_operation_eq, apply_operation_declared.
  by rewrite Hp.
Qed.

(** X13. A session without pending operations that processes a sequence of
    submissions leaves the store as it was and its users as they were;
    its document is the one obtained by applying the submitted objects in
    order, and the k-th answer is a success carrying the k-th submitted
    object, the version [k+1] steps on, and the content after the first
    [k+1] edits. *)
Theorem session_run_applies_in_order
    (s : CollaborativeSession.t) (ops : list oref) (h : heap)
    (Hp : CollaborativeSession.pending_operations s = []) :
  snd (process_all s ops h) = h /\
  CollaborativeSession.document (snd (fst (process_all s ops h))) =
    apply_all (CollaborativeSession.document s) ops h /\
  CollaborativeSession.users (snd (fst (process_all s ops h))) =
    CollaborativeSession.users s /\
  fst (fst (process_all s ops h)) =
    imap (fun k r =>
            CollaborativeSession.Success r
              (Document.version (CollaborativeSession.document s)
               + Z.of_nat k + 1)
              (replay_from
                 (Document.content (CollaborativeSession.document s)) h
                 (take (S k) ops)))
      ops.
Proof.
  revert s Hp. induction ops as [|r ops IH]; intros s Hp; [done|].
  simpl. rewrite process_operation_no_pending by done.
  rewrite apply_operation_declared. simpl.
  set (s1 := CollaborativeSession.mk _ _ _ _).
  destruct (IH s1 eq_refl) as (Hh & Hd & Hu & Hres).
  destruct (process_all s1 ops h) as [[results s2] h2]. simpl in *.
  repeat split; try done.
  rewrite Hres. f_equal.
  - f_equal. lia.
  - apply imap_ext. intros k r' _. simpl. f_equal. lia.
Qed.

Lemma session_run_applies_in_order_witness :
  Document.content
    (CollaborativeSession.document
       (snd (fst (process_all session_fresh [0%nat; 1%nat] store_hello_hi)))) =
  txt "hi hello".
Proof.
  rewrite (proj1 (proj2 (session_run_applies_in_order
             session_fresh [0%nat; 1%nat] store_hello_hi eq_refl))).
  reflexivity.
Defined.

(** ** The registry of sessions *)

(** X15. [create_session] is get-or-create: the session it returns is the
    one found under the id afterwards; it is the session already
    registered if there is one, and a new session with an empty document
    otherwise; calling it again for the same id, with any document id,
    returns the same session and leaves the registry as it is. *)
Theorem create_session_get_or_create
    (self : CollabEditorService.t) (session_id document_id document_id' : string) :
  CollabEditorService.get_session
    (snd (CollabEditorService.create_session self session_id document_id))
    session_id =
    Some (fst (CollabEditorService.create_session self session_id document_id)) /\
  fst (CollabEditorService.create_session self session_id document_id) =
    match CollabEditorService.get_session self session_id with
    | Some s => s
    | None => CollaborativeSession.init session_id document_id
    end /\
  CollabEditorService.create_session
    (snd (CollabEditorService.create_session self session_id document_id))
    session_id document_id' =
    CollabEditorService.create_session self session_id document_id.
Proof.
  unfold CollabEditorService.create_session, CollabEditorService.get_session.
  destruct (CollabEditorService.sessions self !! session_id) as [s|] eqn:E;
    simpl.
  - by rewrite E.
  - by rewrite lookup_insert_eq.
Qed.

(** X16. Sessions are independent: creating, joining or submitting to the
    session of one id leaves the session registered under any other id as
    it was. *)
Theorem other_sessions_untouched
    (self : CollabEditorService.t)
    (session_id other document_id user_id username : string)
    (now : Z) (r : oref) (h : heap)
    (Hother : other <> session_id) :
  CollabEditorService.get_session
    (snd (CollabEditorService.create_session self session_id document_id))
    other = CollabEditorService.get_session self other /\
  CollabEditorService.get_session
    (snd (CollabEditorService.join_session self session_id user_id username now))
    other = CollabEditorService.get_session self other /\
  CollabEditorService.get_session
    (snd (fst (CollabEditorService.handle_operation self session_id r h)))
    other = CollabEditorService.get_session self other.
Proof.
  unfold CollabEditorService.create_session, CollabEditorService.join_session,
    CollabEditorService.handle_operation, CollabEditorService.get_session.
  destruct (CollabEditorService.sessions self !! session_id) as [s|] eqn:E;
    simpl; [|by rewrite lookup_insert_ne].
  destruct (CollaborativeSession.process_operation s r h) as [[res s'] h'].
  simpl. by rewrite !lookup_insert_ne.
Qed.

Lemma other_sessions_untouched_witness :
  CollabEditorService.get_session
    (snd (fst (CollabEditorService.handle_operation
                 service_hello "elsewhere" 1%nat store_hello_hi)))
    "session" = Some session_hello.
Proof.
  rewrite (proj2 (proj2 (other_sessions_untouched service_hello
    "elsewhere" "session" "doc" "user1" "Alice" 0 1%nat store_hello_hi
    ltac:(discriminate)))).
  reflexivity.
Defined.

(** X17. An unknown session id is reported, never created on the fly:
    joining and submitting answer ["Session not found"] and change neither
    the registry nor the store, and the state endpoint has nothing to
    return. *)
Theorem unknown_session_is_reported
    (self : CollabEditorService.t) (session_id user_id username : string)
    (now : Z) (r : oref) (h : heap)
    (Hunknown : CollabEditorService.get_session self session_id = None) :
  CollabEditorService.join_session self session_id user_id username now =
    (CollabEditorService.JoinFailure "Session not found", self) /\
  CollabEditorService.handle_operation self session_id r h =
    (CollaborativeSession.Failure "Session not found", self, h) /\
  ApiGateway.get_session_state self session_id = None.
Proof.
  unfold CollabEditorService.join_session,
    CollabEditorService.handle_operation, ApiGateway.get_session_state.
  by rewrite Hunknown.
Qed.

Lemma unknown_session_is_reported_witness :
  CollabEditorService.handle_operation service_hello "elsewhere" 1%nat
    store_hello_hi =
  (CollaborativeSession.Failure "Session not found", service_hello,
   store_hello_hi).
Proof.
  exact (proj1 (proj2 (unknown_session_is_reported service_hello
    "elsewhere" "user1" "Alice" 0 1%nat store_hello_hi eq_refl))).
Defined.

(** X18. Joining a registered session succeeds: the user is stored in the
    session with cursor position 0 and appears in the returned state, the
    other users appear as they were, and the returned content and version
    are those of the session's document, which joining does not change. *)
Theorem join_session_registers_user
    (self : CollabEditorService.t) (session_id user_id username other : string)
    (now : Z) (s : CollaborativeSession.t)
    (Hs : CollabEditorService.get_session self session_id = Some s)
    (Hother : other <> user_id) :
  exists st,
    fst (CollabEditorService.join_session self session_id user_id username now) =
      CollabEditorService.Joined st /\
    CollaborativeSession.state_users st !! user_id =
      Some (CollaborativeSession.mk_user_entry user_id username 0) /\
    CollaborativeSession.state_users st !! other =
      CollaborativeSession.state_users (CollaborativeSession.get_state s) !! other /\
    CollaborativeSession.state_content st =
      Document.content (CollaborativeSession.document s) /\
    CollaborativeSession.state_version st =
      Document.version (CollaborativeSession.document s) /\
    CollabEditorService.get_session
      (snd (CollabEditorService.join_session self session_id user_id username now))
      session_id =
      Some (CollaborativeSession.add_user s (User.mk user_id username 0 now)).
Proof.
  unfold CollabEditorService.join_session. rewrite Hs. simpl.
  eexists. split; [reflexivity|]. simpl.
  rewrite !lookup_fmap, lookup_insert_eq, lookup_insert_ne by done.
  repeat split. unfold CollabEditorService.get_session. simpl.
  apply lookup_insert_eq.
Qed.

Lemma join_session_registers_user_witness :
  exists st,
    fst (CollabEditorService.join_session service_hello "session" "user1"
           "Alice" 7) = CollabEditorService.Joined st /\
    CollaborativeSession.state_users st !! "user1" =
      Some (CollaborativeSession.mk_user_entry "user1" "Alice" 0).
Proof.
  destruct (join_session_registers_user service_hello "session" "user1"
              "Alice" "user2" 7 session_hello eq_refl ltac:(discriminate))
    as (st & H1 & H2 & _).
  exists st. split; [exact H1 | exact H2].
Defined.

Lemma handle_operation_found_witness :
  fst (fst (CollabEditorService.handle_operation service_hello "session"
              1%nat store_hello_hi)) =
  CollaborativeSession.Success 1%nat 2 (txt "hi hello").
Proof.
  rewrite (proj1 (handle_operation_found service_hello "session" session_hello
                    1%nat store_hello_hi eq_refl)).
  reflexivity.
Defined.

(** ** Gateway *)

(** X20. [POST /collab/sessions] always ends with the user joined, whether
    the session existed or not: the answer is a session state listing the
    user with cursor position 0; the content and version are those of the
    existing session's document, or empty and 0 for a new one; and a
    [GET] of the session right afterwards returns the same state. *)
Theorem create_collab_session_always_joins
    (collab_service : CollabEditorService.t)
    (request : ApiGateway.CollabSessionRequest) (now : Z) :
  exists st,
    fst (ApiGateway.create_collab_session collab_service request now) =
      CollabEditorService.Joined st /\
    CollaborativeSession.state_users st !! ApiGateway.user_id request =
      Some (CollaborativeSession.mk_user_entry (ApiGateway.user_id request)
              (ApiGateway.username request) 0) /\
    (CollaborativeSession.state_content st, CollaborativeSession.state_version st) =
      match CollabEditorService.get_session collab_service
              (ApiGateway.session_id request) with
      | Some s => (Document.content (CollaborativeSession.document s),
                   Document.version (CollaborativeSession.document s))
      | None => ([], 0)
      end /\
    ApiGateway.get_session_state
      (snd (ApiGateway.create_collab_session collab_service request now))
      (ApiGateway.session_id request) = Some st.
Proof.
  unfold ApiGateway.create_collab_session, ApiGateway.get_session_state,
    CollabEditorService.create_session, CollabEditorService.join_session,
    CollabEditorService.get_session.
  destruct (CollabEditorService.sessions collab_service
              !! ApiGateway.session_id request) as [s|] eqn:E; simpl.
  - rewrite E. simpl. eexists. split; [reflexivity|]. simpl.
    rewrite lookup_fmap, !lookup_insert_eq. done.
  - rewrite lookup_insert_eq. simpl. eexists. split; [reflexivity|]. simpl.
    rewrite lookup_fmap, !lookup_insert_eq. done.
Qed.
